(** * project_setup.py: environment bootstrap of the report template

    A shallow embedding of [src/project_setup.py] and of the parts of the
    Python runtime it calls ([str.strip], [str.partition],
    [str.startswith], text-file iteration, [os.environ.setdefault],
    [Path.mkdir], [Path.is_file], [logging]).

    Conventions.
    - A Python [str] is a [string]; an [ascii] stands for the code point of
      the same number, so the embedding covers text whose code points are
      below 256.
    - [os.environ] is a [gmap string string], with the behaviour it has on
      POSIX systems (keys are case sensitive, [putenv] refuses NUL, an
      empty name and a name with [=]).
    - The filesystem is a finite map from absolute paths to what stands
      there, without links.  It is well formed: no name holds a NUL, and a
      file or a directory lies in a directory.  The system walks down to a
      path from the top, and the first thing in the way decides the error
      of a call.  Of permissions and resources the map keeps what the
      module can meet: an error that creating an entry in a directory
      fails with, an error that opening a file fails with, and an error
      that every call on a path fails with once the way to it is there.
      A directory that [mkdir] makes takes new entries.
    - The log is the list of the records handed to loggers; what the
      handlers installed by the host do with them is not part of it.
    - A function that touches the process state is a function from [world]
      to a new [world] and an [outcome], which is a value or the exception
      raised. *)

From Stdlib Require Import Ascii String NArith Bool.
From stdpp Require Import base option list gmap strings fin_maps.

Local Open Scope string_scope.

(** ** Python strings *)

Module PyStr.

(** [str.isspace] on one character: the code points below 256 for which
    CPython's [Py_UNICODE_ISSPACE] holds (TAB, LF, VT, FF, CR, the four
    separators FS GS RS US, SPACE, NEL and NBSP). *)
Definition isspace (c : ascii) : bool :=
  match N_of_ascii c with
  | 9 | 10 | 11 | 12 | 13 | 28 | 29 | 30 | 31 | 32 | 133 | 160 => true
  | _ => false
  end%N.

(** [bool(s)]: a string is truthy when it is not empty. *)
Definition truthy (s : string) : bool :=
  match s with
  | EmptyString => false
  | String _ _ => true
  end.

(** [s.lstrip()] *)
Fixpoint lstrip (s : string) : string :=
  match s with
  | EmptyString => EmptyString
  | String c s' => if isspace c then lstrip s' else s
  end.

(** [s.rstrip()]: a character stays when it is not whitespace or when
    something stays to its right. *)
Fixpoint rstrip (s : string) : string :=
  match s with
  | EmptyString => EmptyString
  | String c s' =>
      let r := rstrip s' in
      if isspace c && negb (truthy r) then EmptyString else String c r
  end.

(** [s.strip()] *)
Definition strip (s : string) : string := rstrip (lstrip s).

(** [s.startswith(c)] for a one-character prefix [c]. *)
Definition startswith (s : string) (c : ascii) : bool :=
  match s with
  | EmptyString => false
  | String d _ => bool_decide (d = c)
  end.

(** [s.partition(sep)] for a one-character separator: the part before the
    first [sep], the separator itself, and the rest; [(s, "", "")] when
    [sep] does not occur. *)
Fixpoint partition (sep : ascii) (s : string) : string * string * string :=
  match s with
  | EmptyString => (EmptyString, EmptyString, EmptyString)
  | String c s' =>
      if bool_decide (c = sep) then (EmptyString, String sep EmptyString, s')
      else let '(k, m, v) := partition sep s' in (String c k, m, v)
  end.

(** [c in s] *)
Fixpoint contains (c : ascii) (s : string) : bool :=
  match s with
  | EmptyString => false
  | String d s' => bool_decide (d = c) || contains c s'
  end.

Definition LF : ascii := ascii_of_N 10.
Definition CR : ascii := ascii_of_N 13.
Definition NUL : ascii := ascii_of_N 0.

(** Iterating over a file opened in text mode with the default
    [newline=None] (universal newlines): a line ends at LF, CR or CR LF,
    and the terminator is handed over as a single LF.  [cur] holds the
    characters of the line being read, latest first; [cr] says that the
    previous character was a CR, whose LF, if it follows, belongs to the
    line already ended. *)
Fixpoint lines_go (cur : string) (cr : bool) (s : string) : list string :=
  match s with
  | EmptyString =>
      if truthy cur then [String.rev cur] else []
  | String c s' =>
      if bool_decide (c = LF) then
        if cr then lines_go EmptyString false s'
        else String.rev (String LF cur) :: lines_go EmptyString false s'
      else if bool_decide (c = CR) then
        String.rev (String LF cur) :: lines_go EmptyString true s'
      else lines_go (String c cur) false s'
  end.

Definition lines (s : string) : list string := lines_go EmptyString false s.

End PyStr.

(** ** Exceptions, the filesystem and the process state *)

(** Paths are lists of components, innermost first: the parent of
    [name :: p] is [p], and [[]] is the filesystem root. *)
Abbreviation path := (list string).

Definition joinpath (p : path) (name : string) : path := name :: p.

Declare Scope path_scope.
Delimit Scope path_scope with path.
Notation "p / name" := (joinpath p name) : path_scope.

Inductive errno : Set :=
  ENOENT | EEXIST | ENOTDIR | EISDIR | EACCES | EROFS | ENOSPC | EIO
  | EBADF | ELOOP | ENAMETOOLONG.

#[global] Instance errno_eq_dec : EqDecision errno.
Proof. solve_decision. Defined.

(** The exceptions the module can meet.  [OSError] stands for the class and
    its subclasses ([FileNotFoundError] is [OSError ENOENT], and so on);
    [ValueError] and its subclass [UnicodeDecodeError] are not
    [OSError]s. *)
Inductive exn : Type :=
  | OSError (e : errno) (p : path)
  | ValueError (msg : string)
  | UnicodeDecodeError.

Definition is_OSError (e : exn) : bool :=
  match e with OSError _ _ => true | _ => false end.

Definition is_FileNotFoundError (e : exn) : bool :=
  match e with OSError ENOENT _ => true | _ => false end.

Definition is_ValueError (e : exn) : bool :=
  match e with ValueError _ | UnicodeDecodeError => true | _ => false end.

(** [pathlib._ignore_error]: the errors after which [is_dir] and [is_file]
    answer [False]. *)
Definition _ignore_error (e : exn) : bool :=
  match e with
  | OSError (ENOENT | ENOTDIR | EBADF | ELOOP) _ => true
  | _ => false
  end.

Inductive outcome (A : Type) : Type :=
  | Return (a : A)
  | Raise (e : exn).
Arguments Return {A} a.
Arguments Raise {A} e.

(** What reading a regular file as UTF-8 text gives: the file cannot be
    opened at all, or it yields the lines of [s] and then, when [bad] is
    set, meets bytes that do not decode. *)
Inductive contents : Type :=
  | Unopenable (e : errno)
  | Text (s : string) (bad : bool).

(** What stands at a path.  A directory carries the error, if any, that
    creating an entry in it fails with (no write permission, read-only
    disk, ...).  [Denied e] stands at a path on which every call fails
    with [e] once the directory it lies in is there: a path in a directory
    that may not be searched, a directory that cannot be made for want of
    space or of permission, ...; nothing is taken to exist there. *)
Inductive node : Type :=
  | Dir (fault : option errno)
  | File (c : contents)
  | Denied (e : errno).

(** [S_ISDIR] and [S_ISREG] on what [stat] found. *)
Definition S_ISDIR (n : node) : bool :=
  match n with Dir _ => true | _ => false end.

Definition S_ISREG (n : node) : bool :=
  match n with File _ => true | _ => false end.

(** A path with a NUL in one of its names cannot be handed to the
    system. *)
Definition has_nul (p : path) : bool := existsb (PyStr.contains PyStr.NUL) p.

(** An entry of a well-formed filesystem: its path holds no NUL, and a
    file or a directory other than the root lies in a directory. *)
Definition entry_ok (f : gmap path node) (p : path) (n : node) : bool :=
  negb (has_nul p)
  && match n, p with
     | Denied _, _ => true
     | _, [] => true
     | _, _ :: parent =>
         match f !! parent with Some (Dir _) => true | _ => false end
     end.

Definition wf_fs (f : gmap path node) : bool :=
  forallb (fun '(p, n) => entry_ok f p n) (map_to_list f).

(** What the system finds when it walks down to a path, from the top:
    what stands there when every path above is a directory; [ENOENT] when
    nothing stands there; [ENOTDIR] below a regular file; and the error of
    the first path on the way that is denied.  The result [Denied e] says
    that a call on the path fails with [e]. *)
Fixpoint walk (f : gmap path node) (p : path) : node :=
  match p with
  | [] => default (Denied ENOENT) (f !! p)
  | _ :: parent =>
      match walk f parent with
      | Dir _ => default (Denied ENOENT) (f !! p)
      | File _ => Denied ENOTDIR
      | Denied e => Denied e
      end
  end.

Inductive level : Set := DEBUG | INFO | WARNING | ERROR | CRITICAL.

Inductive log_arg : Type :=
  | ArgPath (p : path)
  | ArgExc (e : exn).

(** A call of a logger method: level, format string and arguments. *)
Record log_record : Type := LogRecord {
  lr_level : level;
  lr_msg : string;
  lr_args : list log_arg
}.

Record world : Type := World {
  environ : gmap string string;        (* os.environ *)
  fs : gmap path node;                 (* the filesystem *)
  cwd : path;                          (* the working directory of the process *)
  root_logger : option (level * string); (* handler installed on the root logger *)
  log : list log_record;               (* records handed to loggers, oldest first *)
  fs_ok : Is_true (wf_fs fs)           (* the filesystem is well formed *)
}.

Definition set_environ (m : gmap string string) (w : world) : world :=
  World m (fs w) (cwd w) (root_logger w) (log w) (fs_ok w).
Definition set_root_logger (r : option (level * string)) (w : world) : world :=
  World (environ w) (fs w) (cwd w) r (log w) (fs_ok w).
Definition set_log (l : list log_record) (w : world) : world :=
  World (environ w) (fs w) (cwd w) (root_logger w) l (fs_ok w).

(** Replacing the filesystem by a well-formed one; another one is not
    taken.  [os.mkdir], which alone changes the filesystem, always hands
    over a well-formed one (lemma [os_mkdir_cases]). *)
Definition set_fs (f : gmap path node) (w : world) : world :=
  match decide (Is_true (wf_fs f)) with
  | left ok => World (environ w) f (cwd w) (root_logger w) (log w) ok
  | right _ => w
  end.

(** ** Computations that read and write the process state and may raise *)

Definition M (A : Type) : Type := world → world * outcome A.

Definition ret {A} (a : A) : M A := fun w => (w, Return a).

Definition raise {A} (e : exn) : M A := fun w => (w, Raise e).

Definition bind {A B} (c : M A) (k : A → M B) : M B := fun w =>
  match c w with
  | (w', Return a) => k a w'
  | (w', Raise e) => (w', Raise e)
  end.

Declare Scope M_scope.
Delimit Scope M_scope with M.
Bind Scope M_scope with M.
Notation "x ← c ; k" := (bind c (fun x => k))
  (at level 20, c at level 100, k at level 200, only parsing) : M_scope.
Notation "c ;; k" := (bind c (fun _ => k))
  (at level 100, k at level 200, only parsing, right associativity) : M_scope.
Local Open Scope M_scope.

(** [try: c except E as exc: h exc], where [E] is the class of the
    exceptions [sel] accepts; the others pass through. *)
Definition try_except {A} (c : M A) (sel : exn → bool) (h : exn → M A) : M A :=
  fun w =>
    match c w with
    | (w', Return a) => (w', Return a)
    | (w', Raise e) => if sel e then h e w' else (w', Raise e)
    end.

(** [for x in l: body x] *)
Fixpoint for_each {A} (l : list A) (body : A → M unit) : M unit :=
  match l with
  | [] => ret tt
  | x :: l' => body x ;; for_each l' body
  end.

(** ** The runtime calls the module makes *)

Module Py.
Import PyStr.

(** [os.putenv] behind [os.environ.__setitem__]: an embedded NUL is
    refused when the arguments are converted, an empty name or a name
    with [=] by [putenv] itself. *)
Definition environ_setitem (key value : string) : M unit := fun w =>
  if contains NUL key || contains NUL value
  then (w, Raise (ValueError "embedded null byte"))
  else if negb (truthy key) || contains "=" key
  then (w, Raise (ValueError "illegal environment variable name"))
  else (set_environ (<[key := value]> (environ w)) w, Return tt).

(** [os.environ.setdefault(key, value)]:
    [if key not in self: self[key] = value]. *)
Definition environ_setdefault (key value : string) : M unit := fun w =>
  match environ w !! key with
  | Some _ => (w, Return tt)
  | None => environ_setitem key value w
  end.

(** [os.stat(p)]: the path is converted first, which a NUL makes fail
    with [ValueError]. *)
Definition os_stat (p : path) : M node := fun w =>
  if has_nul p then (w, Raise (ValueError "embedded null byte"))
  else
    match walk (fs w) p with
    | Denied e => (w, Raise (OSError e p))
    | n => (w, Return n)
    end.

(** [os.mkdir(p)]: after the conversion of the path the system walks
    down to the directory the path lies in; there, a name that is taken
    gives [EEXIST], and a free one is made a directory unless the
    directory refuses new entries. *)
Definition os_mkdir (p : path) : M unit := fun w =>
  if has_nul p then (w, Raise (ValueError "embedded null byte"))
  else
    match p with
    | [] =>
        match walk (fs w) p with
        | Denied e => (w, Raise (OSError e p))
        | _ => (w, Raise (OSError EEXIST p))
        end
    | _ :: parent =>
        match walk (fs w) parent with
        | Denied e => (w, Raise (OSError e p))
        | File _ => (w, Raise (OSError ENOTDIR p))
        | Dir fault =>
            match fs w !! p, fault with
            | Some (Denied e), _ => (w, Raise (OSError e p))
            | Some _, _ => (w, Raise (OSError EEXIST p))
            | None, Some e => (w, Raise (OSError e p))
            | None, None => (set_fs (<[p := Dir None]> (fs w)) w, Return tt)
            end
        end
    end.

(** [p.is_dir()] and [p.is_file()] of pathlib: [stat], with
    [except OSError as e: if not _ignore_error(e): raise; return False]
    and [except ValueError: return False]. *)
Definition Path_is_dir (p : path) : M bool :=
  try_except (st ← os_stat p; ret (S_ISDIR st))
    (fun e => is_OSError e || is_ValueError e)
    (fun e =>
       if is_OSError e
       then if _ignore_error e then ret false else raise e
       else ret false).

Definition Path_is_file (p : path) : M bool :=
  try_except (st ← os_stat p; ret (S_ISREG st))
    (fun e => is_OSError e || is_ValueError e)
    (fun e =>
       if is_OSError e
       then if _ignore_error e then ret false else raise e
       else ret false).

(** [p.mkdir(parents=False, exist_ok=True)] of pathlib: a missing parent
    is raised as it is; any other [OSError] is dropped when [p] is a
    directory. *)
Definition Path_mkdir_here (p : path) : M unit :=
  try_except (os_mkdir p) is_OSError (fun e =>
    if is_FileNotFoundError e then raise e
    else is_dir ← Path_is_dir p; if is_dir then ret tt else raise e).

(** [p.mkdir(parents=True, exist_ok=True)] of pathlib: on a missing
    parent, make the parent the same way and try [p] once more.  The
    directories are made one at a time, so that a failure further down
    leaves the ones made before it. *)
Fixpoint Path_mkdir (p : path) : M unit :=
  try_except (os_mkdir p) is_OSError (fun e =>
    if is_FileNotFoundError e then
      match p with
      | [] => raise e
      | _ :: parent => Path_mkdir parent ;; Path_mkdir_here p
      end
    else is_dir ← Path_is_dir p; if is_dir then ret tt else raise e).

(** [p.open("r", encoding="utf-8")]: the text of the file and whether
    undecodable bytes follow it. *)
Definition Path_open (p : path) : M (string * bool) := fun w =>
  if has_nul p then (w, Raise (ValueError "embedded null byte"))
  else
    match walk (fs w) p with
    | Denied e => (w, Raise (OSError e p))
    | Dir _ => (w, Raise (OSError EISDIR p))
    | File (Unopenable e) => (w, Raise (OSError e p))
    | File (Text s bad) => (w, Return (s, bad))
    end.

(** [for line in fh: body line] over an open text file. *)
Definition for_line_in (fh : string * bool) (body : string → M unit) : M unit :=
  for_each (lines (fst fh)) body ;;
  if snd fh then raise UnicodeDecodeError else ret tt.

(** [Path.cwd()], that is [os.getcwd()]: it fails when the working
    directory is no longer there, or cannot be reached. *)
Definition Path_cwd : M path := fun w =>
  match walk (fs w) (cwd w) with
  | Dir _ => (w, Return (cwd w))
  | File _ => (w, Raise (OSError ENOTDIR (cwd w)))
  | Denied e => (w, Raise (OSError e (cwd w)))
  end.

(** [logging.basicConfig(level=..., format=...)]: does nothing when the
    root logger already has a handler. *)
Definition logging_basicConfig (lv : level) (format : string) : M unit := fun w =>
  match root_logger w with
  | Some _ => (w, Return tt)
  | None => (set_root_logger (Some (lv, format)) w, Return tt)
  end.

(** [logging.getLogger(__name__).warning(msg, *args)] *)
Definition logger_warning (msg : string) (args : list log_arg) : M unit := fun w =>
  (set_log (log w ++ [LogRecord WARNING msg args]) w, Return tt).

End Py.

(** ** The module *)

Import PyStr Py.
Local Open Scope path_scope.

(** The body of the loop of [_load_dotenv]. *)
Definition _load_dotenv_line (line : string) : M unit :=
  let line := strip line in
  if negb (truthy line) || startswith line "#" then ret tt
  else
    let '(key, _, value) := partition "=" line in
    if truthy key then environ_setdefault (strip key) (strip value)
    else ret tt.

Definition _load_dotenv (dotenv_path : path) : M unit :=
  fh ← Path_open dotenv_path;
  for_line_in fh _load_dotenv_line.

Definition _ensure_data_directories (project_root : path) : M unit :=
  let processed_dir := project_root / "data" / "processed" in
  try_except (Path_mkdir processed_dir) is_OSError (fun exc =>
    logger_warning "Unable to create processed data directory %s: %s"
      [ArgPath processed_dir; ArgExc exc]) ;;
  let dotenv_path := project_root / ".env" in
  is_file ← Path_is_file dotenv_path;
  if is_file then _load_dotenv dotenv_path else ret tt.

Definition _configure_logging : M unit :=
  logging_basicConfig INFO "%(asctime)s - %(name)s - %(levelname)s - %(message)s".

Definition configure_environment (project_root : option path) : M unit :=
  project_root ← match project_root with
                  | None => Path_cwd
                  | Some p => ret p
                  end;
  _configure_logging ;;
  _ensure_data_directories project_root.

(** ** The dotfile rules as the specification words them *)

Module Spec.

(** "Split the line at the first [=] into key and value.  If no [=] is
    present, key is the whole line and value is empty." *)
Definition split_first_eq (line : string) : string * string :=
  match String.index 0 "=" line with
  | Some i =>
      (String.substring 0 i line,
       String.substring (S i) (String.length line - S i) line)
  | None => (line, "")
  end.

(** "Skip the line if, after stripping, it is empty or its first
    character is [#]." *)
Definition blank_or_comment (line : string) : bool :=
  bool_decide (line = "") || bool_decide (String.get 0 line = Some "#"%char).

(** One line of the dotfile: nothing to do, or a key to set to a value
    unless it is set already. *)
Definition assignment (raw : string) : option (string * string) :=
  let line := strip raw in
  if blank_or_comment line then None
  else
    let '(key, value) := split_first_eq line in
    let key := strip key in
    let value := strip value in
    if bool_decide (key = "") then None else Some (key, value).

End Spec.

(** ** Notions the properties are stated with *)

(** [confined get set c]: the computation [c] reads nothing but the
    component [get] of the world, and writes nothing but it: run from any
    world [w], it does what it does from any other world [w0] with the same
    component, and leaves the rest of [w] alone. *)
Definition confined {X A} (get : world → X) (set : X → world → world)
    (c : M A) : Prop :=
  ∀ w w0, get w0 = get w → c w = (set (get (c w0).1) w, (c w0).2).

(** [p] is a directory of the filesystem [f]. *)
Definition is_dir_in (f : gmap path node) (p : path) : Prop :=
  ∃ d, f !! p = Some (Dir d).

(** What [is_dir] and [is_file] make of an error of [stat]. *)
Definition stat_refused (e : errno) (p : path) : outcome bool :=
  if _ignore_error (OSError e p) then Return false else Raise (OSError e p).

(** What [is_file] answers at a path of a filesystem. *)
Definition is_file_answer (f : gmap path node) (p : path) : outcome bool :=
  if has_nul p then Return false
  else match walk f p with
       | File _ => Return true
       | Dir _ => Return false
       | Denied e => stat_refused e p
       end.

(** How two runs of [mkdir] compare: both return, or both raise, an
    [OSError] each or the same other error. *)
Definition same_end (r r' : outcome unit) : Prop :=
  match r, r' with
  | Return _, Return _ => True
  | Raise e, Raise e' =>
      is_OSError e' = is_OSError e ∧ (is_OSError e = false → e' = e)
  | _, _ => False
  end.

(** The project root of a call: the one it is given, or else the working
    directory, which has to be there. *)
Definition project_root_is (root : option path) (w : world) (pr : path) : Prop :=
  match root with
  | Some p => pr = p
  | None => pr = cwd w ∧ is_dir_in (fs w) (cwd w)
  end.

(** The paths and the log record [_ensure_data_directories] builds. *)
Definition processed_dir (project_root : path) : path :=
  project_root / "data" / "processed".

Definition dotenv_path (project_root : path) : path := project_root / ".env".

Definition mkdir_warning (project_root : path) (exc : exn) : log_record :=
  LogRecord WARNING "Unable to create processed data directory %s: %s"
    [ArgPath (processed_dir project_root); ArgExc exc].

(** The last three lines of [_ensure_data_directories], on their own: load
    the dotfile if there is one. *)
Definition load_if_present (project_root : path) : M unit :=
  is_file ← Path_is_file (dotenv_path project_root);
  if is_file then _load_dotenv (dotenv_path project_root) else ret tt.

(** Two worlds with the same environment and the same filesystem; the log
    and the logging configuration may differ. *)
Definition same_state (w w' : world) : Prop :=
  environ w = environ w' ∧ fs w = fs w'.

(** A dotfile that cannot be read: it cannot be opened, or bytes that do
    not decode follow its text. *)
Definition unreadable (c : contents) : Prop :=
  match c with
  | Unopenable _ => True
  | Text _ bad => bad = true
  end.

(** What reading such a file raises: the error of [open], or the decoding
    error, unless an earlier line was refused by [putenv]. *)
Definition read_error (p : path) (c : contents) (e : exn) : Prop :=
  match c with
  | Unopenable en => e = OSError en p
  | Text _ _ => e = UnicodeDecodeError ∨ ∃ msg, e = ValueError msg
  end.

(** [ws] is made of whitespace only (it may be empty). *)
Fixpoint blank (ws : string) : bool :=
  match ws with
  | EmptyString => true
  | String c ws' => isspace c && blank ws'
  end.

(** Whether the character of [s] at position [i] is whitespace. *)
Definition space_at (i : nat) (s : string) : bool :=
  match String.get i s with
  | Some c => isspace c
  | None => false
  end.

(** [s] neither starts nor ends with whitespace. *)
Definition trimmed (s : string) : bool :=
  negb (space_at 0 s) && negb (space_at (String.length s - 1) s).

(** [t] is [s] without the whitespace at its two ends: [s] is [t] between
    two runs of whitespace, and [t] starts and ends with none. *)
Definition stripped_of (s t : string) : Prop :=
  trimmed t = true
  ∧ ∃ a b, blank a = true ∧ blank b = true ∧ s = a +:+ t +:+ b.

(** The bindings the lines of a dotfile ask for, in the order of the
    lines. *)
Definition bindings (ls : list string) : list (string * string) :=
  omap Spec.assignment ls.

(** What a dotfile at [c] can make [configure_environment] raise. *)
Definition dotfile_error (p : path) (c : contents) (e : exn) : Prop :=
  match c with
  | Unopenable en => e = OSError en p
  | Text s bad =>
      (bad = true ∧ e = UnicodeDecodeError)
      ∨ (contains NUL s = true ∧ e = ValueError "embedded null byte")
  end.

(** ** Example projects *)

(** The dotfile of the specification's example, with or without a newline
    after its last line. *)
Definition nl : string := String LF "".

Definition example_dotfile (final_newline : bool) : string :=
  "FOO=bar" +:+ nl +:+
  "# comment" +:+ nl +:+
  "BAZ = qux" +:+ nl +:+
  "EMPTY=" +:+ nl +:+
  "=novalue" +:+ nl +:+
  "NOKEY" +:+ (if final_newline then nl else "").

(** The example, loaded into an empty environment. *)
Definition world_example : world :=
  World ∅
        (<[ [".env"; "proj"] := File (Text (example_dotfile true) false) ]>
           (<[ ["proj"] := Dir None ]> {[ [] := Dir None ]}))
        ["proj"] None [] I.

(** A project at [/proj] whose [.env] holds the one line [FOO=new], in a
    process that has [FOO] set already. *)
Definition world_foo_set : world :=
  World {[ "FOO" := "existing" ]}
        (<[ [".env"; "proj"] := File (Text "FOO=new" false) ]>
           (<[ ["proj"] := Dir None ]> {[ [] := Dir None ]}))
        ["proj"] None [] I.

(** A dotfile that assigns [K] twice, after a line for another key. *)
Definition world_duplicates : world :=
  World ∅
        (<[ [".env"; "proj"] :=
              File (Text ("A=1" +:+ nl +:+ "K=first" +:+ nl +:+ "K=second" +:+ nl)
                         false) ]>
           (<[ ["proj"] := Dir None ]> {[ [] := Dir None ]}))
        ["proj"] None [] I.


(** A project whose dotfile the process may not open. *)
Definition world_unreadable : world :=
  World ∅
        (<[ [".env"; "proj"] := File (Unopenable EACCES) ]>
           (<[ ["proj"] := Dir None ]> {[ [] := Dir None ]}))
        ["proj"] None [] I.

(** A dotfile whose second line has a NUL for a value. *)
Definition nul_dotfile : string :=
  "A=1" +:+ nl +:+ "B=" +:+ String NUL nl +:+ "C=3" +:+ nl.

Definition world_nul : world :=
  World ∅
        (<[ [".env"; "proj"] := File (Text nul_dotfile false) ]>
           (<[ ["proj"] := Dir None ]> {[ [] := Dir None ]}))
        ["proj"] None [] I.

(** Two dotfiles with the same two lines, in the two orders. *)
Definition world_two_orders : world :=
  World {[ "A" := "0" ]}
        (<[ [".env"; "proj"] := File (Text ("A=1" +:+ nl +:+ "B=2" +:+ nl) false) ]>
           (<[ [".env"; "other"] :=
                 File (Text ("B=2" +:+ nl +:+ "A=1" +:+ nl) false) ]>
              (<[ ["other"] := Dir None ]>
                 (<[ ["proj"] := Dir None ]> {[ [] := Dir None ]}))))
        ["proj"] None [] I.

(** A filesystem with nothing but its root, and a process whose working
    directory [/home/proj] does not exist. *)
Definition world_bare : world :=
  World ∅ {[ [] := Dir None ]} ["proj"; "home"] None [] I.

(** A project without [data], in a process whose umask leaves it no right
    on the directories it makes: once [data] is there, every call on
    [data/processed] is refused. *)
Definition world_umask : world :=
  World ∅
        (<[ ["processed"; "data"; "proj"] := Denied EACCES ]>
           (<[ ["proj"] := Dir None ]> {[ [] := Dir None ]}))
        ["proj"] None [] I.

(** A project whose directory the process may neither search nor write:
    every call on a path in it is refused. *)
Definition world_unsearchable : world :=
  World ∅
        (<[ [".env"; "proj"] := Denied EACCES ]>
           (<[ ["data"; "proj"] := Denied EACCES ]>
              (<[ ["proj"] := Dir (Some EACCES) ]> {[ [] := Dir None ]})))
        ["proj"] None [] I.

(** ** Facts about the string operations *)

Example lines_ex :
  lines ("a" +:+ String CR nl +:+ "b" +:+ nl +:+ nl +:+ String CR "c")
  = ["a" +:+ nl; "b" +:+ nl; nl; nl; "c"].
Proof. vm_compute. reflexivity. Qed.

Example strip_ex : strip "  BAZ = qux  " = "BAZ = qux".
Proof. reflexivity. Qed.

Example partition_ex : partition "=" "BAZ = qux=1" = ("BAZ ", "=", " qux=1").
Proof. reflexivity. Qed.

Section strings.

Lemma truthy_false (s : string) : truthy s = false ↔ s = "".
Proof. destruct s; simpl; split; congruence. Qed.

Lemma rstrip_head (c : ascii) (s : string) :
  isspace c = false → rstrip (String c s) = String c (rstrip s).
Proof. intros Hc. simpl. by rewrite Hc. Qed.

Lemma lstrip_head (s : string) (c : ascii) (t : string) :
  lstrip s = String c t → isspace c = false.
Proof.
  induction s as [|d s IH]; simpl; [done|].
  destruct (isspace d) eqn:Hd; [done|]. congruence.
Qed.

(** A stripped string does not start with whitespace. *)
Lemma strip_head (s : string) (c : ascii) (t : string) :
  strip s = String c t → isspace c = false.
Proof.
  unfold strip. destruct (lstrip s) as [|d u] eqn:Hl; [done|].
  pose proof (lstrip_head _ _ _ Hl) as Hd.
  rewrite rstrip_head by done. congruence.
Qed.

Lemma rstrip_idem (s : string) : rstrip (rstrip s) = rstrip s.
Proof.
  induction s as [|c s IH]; simpl; [done|].
  destruct (isspace c && negb (truthy (rstrip s))) eqn:Hc; [done|].
  simpl. by rewrite IH, Hc.
Qed.

Lemma lstrip_nonspace (c : ascii) (s : string) :
  isspace c = false → lstrip (String c s) = String c s.
Proof. intros Hc. simpl. by rewrite Hc. Qed.

Lemma strip_idem (s : string) : strip (strip s) = strip s.
Proof.
  destruct (strip s) as [|c t] eqn:Hs; [done|].
  pose proof (strip_head _ _ _ Hs) as Hc.
  unfold strip. rewrite lstrip_nonspace by done.
  rewrite <- Hs. unfold strip. apply rstrip_idem.
Qed.

(** Stripping a string that starts with a visible character leaves
    something. *)
Lemma strip_nonspace_head (c : ascii) (s : string) :
  isspace c = false → ∃ t, strip (String c s) = String c t.
Proof.
  intros Hc. unfold strip. rewrite lstrip_nonspace by done.
  rewrite rstrip_head by done. eauto.
Qed.

(** What [partition] returns, in the words of the Python manual. *)
Lemma partition_found (sep : ascii) (s : string) :
  contains sep s = true →
  ∃ k v, partition sep s = (k, String sep "", v)
         ∧ s = k +:+ String sep v ∧ contains sep k = false.
Proof.
  induction s as [|c s IH]; simpl; [done|].
  case_bool_decide as Hc; simpl.
  - subst c. intros _. by exists "", s.
  - intros Hs. destruct (IH Hs) as (k & v & -> & -> & Hk).
    exists (String c k), v. simpl. split_and!; [done..|].
    rewrite bool_decide_eq_false_2 by done. done.
Qed.

Lemma partition_missing (sep : ascii) (s : string) :
  contains sep s = false → partition sep s = (s, "", "").
Proof.
  induction s as [|c s IH]; simpl; [done|].
  case_bool_decide; simpl; [done|]. intros Hs. by rewrite (IH Hs).
Qed.

Lemma partition_key_clean (sep : ascii) (s k m v : string) :
  partition sep s = (k, m, v) → contains sep k = false.
Proof.
  destruct (contains sep s) eqn:Hs.
  - destruct (partition_found _ _ Hs) as (k' & v' & -> & _ & Hk). congruence.
  - rewrite (partition_missing _ _ Hs). congruence.
Qed.

(** The key is a prefix of the line: it starts as the line does. *)
Lemma partition_key_head (sep : ascii) (s m v : string) (c : ascii) (k : string) :
  partition sep s = (String c k, m, v) → ∃ t, s = String c t.
Proof.
  destruct s as [|d s]; simpl; [done|].
  case_bool_decide; [done|].
  destruct (partition sep s) as [[k' m'] v']. intros [= -> _ _ _]. eauto.
Qed.

(** The key the code tests before stripping is empty exactly when its
    stripped form is, because the line was stripped first. *)
Lemma stripped_key_empty (sep : ascii) (raw k m v : string) :
  partition sep (strip raw) = (k, m, v) →
  truthy (strip k) = truthy k.
Proof.
  intros Hp. destruct k as [|c k]; [done|].
  destruct (partition_key_head _ _ _ _ _ _ Hp) as [t Ht].
  pose proof (strip_head _ _ _ Ht) as Hc.
  destruct (strip_nonspace_head c k Hc) as [u ->]. done.
Qed.

Lemma contains_app (c : ascii) (s t : string) :
  contains c (s +:+ t) = contains c s || contains c t.
Proof.
  induction s as [|d s IH]; simpl; [done|]. by rewrite IH, orb_assoc.
Qed.

Lemma contains_rstrip (c : ascii) (s : string) :
  contains c s = false → contains c (rstrip s) = false.
Proof.
  induction s as [|d s IH]; simpl; [done|].
  intros [Hd Hs]%orb_false_iff.
  destruct (isspace d && negb (truthy (rstrip s))); simpl; [done|].
  by rewrite Hd, IH.
Qed.

Lemma contains_lstrip (c : ascii) (s : string) :
  contains c s = false → contains c (lstrip s) = false.
Proof.
  induction s as [|d s IH]; simpl; [done|].
  intros [Hd Hs]%orb_false_iff.
  destruct (isspace d); simpl; [auto|]. by rewrite Hd, Hs.
Qed.

Lemma contains_strip (c : ascii) (s : string) :
  contains c s = false → contains c (strip s) = false.
Proof. intros. by apply contains_rstrip, contains_lstrip. Qed.

End strings.

Section spec_split.

Lemma substring_all (s : string) : String.substring 0 (String.length s) s = s.
Proof. induction s as [|c s IH]; simpl; [done|]. by rewrite IH. Qed.

Lemma index_eq_here (s : string) : String.index 0 "=" (String "=" s) = Some 0.
Proof. cbn [String.index String.prefix]. by destruct s. Qed.

Lemma index_eq_later (c : ascii) (s : string) :
  c ≠ "="%char →
  String.index 0 "=" (String c s) = S <$> String.index 0 "=" s.
Proof.
  intros Hc. cbn [String.index String.prefix].
  destruct (ascii_dec "=" c) as [Heq|_]; [by subst c|].
  by destruct (String.index 0 "=" s).
Qed.

Lemma partition_split_first_eq (s k m v : string) :
  partition "=" s = (k, m, v) → Spec.split_first_eq s = (k, v).
Proof.
  unfold Spec.split_first_eq. revert k m v.
  induction s as [|c s IH]; intros k m v.
  - by intros [= <- <- <-].
  - cbn [partition]. case_bool_decide as Hc.
    + subst c. intros [= <- <- <-]. rewrite index_eq_here.
      cbn [String.substring String.length].
      replace (S (String.length s) - 1) with (String.length s) by lia.
      by rewrite substring_all.
    + destruct (partition "=" s) as [[k' m'] v'] eqn:Hp.
      intros [= <- <- <-].
      specialize (IH _ _ _ eq_refl). rewrite index_eq_later by done.
      destruct (String.index 0 "=" s) as [i|]; cbn in *.
      * by injection IH as -> ->.
      * by injection IH as -> ->.
Qed.

Lemma blank_or_comment_code (line : string) :
  Spec.blank_or_comment line = negb (truthy line) || startswith line "#".
Proof.
  destruct line as [|c t]; [done|]. unfold Spec.blank_or_comment. simpl.
  apply bool_decide_ext. split; congruence.
Qed.

End spec_split.

(** ** Computations confined to one component of the process state *)

Section confined.
Context {X : Type} (get : world → X) (set : X → world → world).
Hypothesis get_set : ∀ w' w, get (set (get w') w) = get w'.
Hypothesis set_set : ∀ w' y w, set (get w') (set y w) = set (get w') w.
Hypothesis set_get : ∀ w, set (get w) w = w.

Lemma confined_self {A} (c : M A) (w : world) :
  confined get set c → (c w).1 = set (get (c w).1) w.
Proof. intros Hc. by rewrite (Hc w w eq_refl) at 1. Qed.

Lemma confined_ret {A} (a : A) : confined get set (ret a).
Proof. intros w w0 Hw. unfold ret. simpl. by rewrite Hw, set_get. Qed.

Lemma confined_raise {A} (e : exn) : confined get set (@raise A e).
Proof. intros w w0 Hw. unfold raise. simpl. by rewrite Hw, set_get. Qed.

Lemma confined_bind {A B} (c : M A) (k : A → M B) :
  confined get set c → (∀ a, confined get set (k a)) →
  confined get set (bind c k).
Proof.
  intros Hc Hk w w0 Hw. unfold bind. rewrite (Hc w w0 Hw).
  destruct (c w0) as [w0' [a|e]]; simpl; [|done].
  rewrite (Hk a (set (get w0') w) w0') by by rewrite get_set.
  by rewrite set_set.
Qed.

Lemma confined_try_except {A} (c : M A) (sel : exn → bool) (h : exn → M A) :
  confined get set c → (∀ e, confined get set (h e)) →
  confined get set (try_except c sel h).
Proof.
  intros Hc Hh w w0 Hw. unfold try_except. rewrite (Hc w w0 Hw).
  destruct (c w0) as [w0' [a|e]]; simpl; [done|].
  destruct (sel e); [|done].
  rewrite (Hh e (set (get w0') w) w0') by by rewrite get_set.
  by rewrite set_set.
Qed.

Lemma confined_for_each {A} (l : list A) (body : A → M unit) :
  (∀ x, confined get set (body x)) → confined get set (for_each l body).
Proof.
  intros Hb. induction l as [|x l IH]; simpl.
  - apply confined_ret.
  - apply confined_bind; [apply Hb | intros _; apply IH].
Qed.

Lemma confined_if {A} (b : bool) (c1 c2 : M A) :
  confined get set c1 → confined get set c2 →
  confined get set (if b then c1 else c2).
Proof. by destruct b. Qed.

End confined.

Section well_formed.

Lemma wf_fs_spec (f : gmap path node) :
  Is_true (wf_fs f) ↔ ∀ p n, f !! p = Some n → entry_ok f p n = true.
Proof.
  unfold wf_fs. rewrite Is_true_true, forallb_forall. split.
  - intros H p n Hp. apply (H (p, n)).
    apply list_elem_of_In, elem_of_map_to_list, Hp.
  - intros H [p n] Hin. apply H.
    by apply elem_of_map_to_list, list_elem_of_In.
Qed.

(** No name of a filesystem holds a NUL. *)
Lemma fs_no_nul (w : world) (p : path) (n : node) :
  fs w !! p = Some n → has_nul p = false.
Proof.
  intros Hp. pose proof (proj1 (wf_fs_spec (fs w)) (fs_ok w) p n Hp) as Hok.
  unfold entry_ok in Hok. apply andb_true_iff in Hok as [Hnul _].
  by apply negb_true_iff.
Qed.

(** A file or a directory lies in a directory. *)
Lemma fs_parent (w : world) (name : string) (parent : path) (n : node) :
  fs w !! (name :: parent) = Some n → (∀ e, n ≠ Denied e) →
  ∃ d, fs w !! parent = Some (Dir d).
Proof.
  intros Hp Hn.
  pose proof (proj1 (wf_fs_spec (fs w)) (fs_ok w) _ n Hp) as Hok.
  unfold entry_ok in Hok. apply andb_true_iff in Hok as [_ Hparent].
  destruct n as [d|c|e]; [| |by destruct (Hn e)];
    destruct (fs w !! parent) as [[d'| |]|]; try done; by exists d'.
Qed.

(** In a well-formed filesystem the system finds every file and every
    directory. *)
Lemma walk_present (w : world) (p : path) (n : node) :
  fs w !! p = Some n → (∀ e, n ≠ Denied e) → walk (fs w) p = n.
Proof.
  revert n. induction p as [|name parent IH]; intros n Hp Hn.
  - cbn [walk]. by rewrite Hp.
  - destruct (fs_parent w name parent n Hp Hn) as [d Hd].
    cbn [walk]. rewrite (IH (Dir d)) by done. by rewrite Hp.
Qed.

(** What the system finds, if it is no error, stands there. *)
Lemma walk_inv (f : gmap path node) (p : path) (n : node) :
  walk f p = n → (∀ e, n ≠ Denied e) → f !! p = Some n.
Proof.
  intros Hwalk Hn.
  assert (default (Denied ENOENT) (f !! p) = n → f !! p = Some n) as Hd.
  { destruct (f !! p) as [n'|]; simpl; [congruence|].
    intros <-. by destruct (Hn ENOENT). }
  destruct p as [|name parent]; cbn [walk] in Hwalk; [by apply Hd|].
  destruct (walk f parent) as [d|c|e]; [by apply Hd|..];
    subst n; by edestruct Hn.
Qed.

Lemma walk_dir (w : world) (p : path) (d : option errno) :
  walk (fs w) p = Dir d ↔ fs w !! p = Some (Dir d).
Proof.
  split; [intros H; by apply walk_inv|intros H; by apply walk_present].
Qed.

Lemma walk_file (w : world) (p : path) (c : contents) :
  walk (fs w) p = File c ↔ fs w !! p = Some (File c).
Proof.
  split; [intros H; by apply walk_inv|intros H; by apply walk_present].
Qed.

Lemma has_nul_cons (name : string) (p : path) :
  has_nul (name :: p) = contains NUL name || has_nul p.
Proof. done. Qed.

Lemma has_nul_suffix (q p : path) :
  q `suffix_of` p → has_nul p = false → has_nul q = false.
Proof.
  intros [k ->]. unfold has_nul. rewrite existsb_app.
  by intros [_ ?]%orb_false_iff.
Qed.

(** A new directory in a directory keeps the filesystem well formed. *)
Lemma wf_fs_mkdir (f : gmap path node) (name : string) (parent : path)
    (d : option errno) :
  Is_true (wf_fs f) → has_nul (name :: parent) = false →
  f !! parent = Some (Dir d) →
  Is_true (wf_fs (<[name :: parent := Dir None]> f)).
Proof.
  rewrite !wf_fs_spec. intros Hf Hnul Hparent q n.
  assert (∀ q' : path, (∃ d', f !! q' = Some (Dir d')) →
            ∃ d', <[name :: parent := Dir None]> f !! q' = Some (Dir d'))
    as Hkeep.
  { intros q' [d' Hq']. destruct (decide (q' = name :: parent)) as [->|Hne].
    - exists None. apply lookup_insert_eq.
    - exists d'. by rewrite lookup_insert_ne. }
  destruct (decide (q = name :: parent)) as [->|Hne].
  - rewrite lookup_insert_eq. intros [= <-]. unfold entry_ok.
    rewrite Hnul. cbn [negb andb].
    destruct (Hkeep parent) as [d' ->]; [by exists d|done].
  - rewrite lookup_insert_ne by done. intros Hq.
    pose proof (Hf q n Hq) as Hok. unfold entry_ok in Hok |- *.
    apply andb_true_iff in Hok as [-> Hok]. cbn [andb].
    destruct n as [d0|c|e]; [| |done]; destruct q as [|x q']; try done.
    + destruct (f !! q') as [[d'| |]|] eqn:Hq'; try done.
      by destruct (Hkeep q') as [d'' ->]; [exists d'|].
    + destruct (f !! q') as [[d'| |]|] eqn:Hq'; try done.
      by destruct (Hkeep q') as [d'' ->]; [exists d'|].
Qed.

End well_formed.

Section lenses.

Lemma world_eq (w w' : world) :
  environ w = environ w' → fs w = fs w' → cwd w = cwd w' →
  root_logger w = root_logger w' → log w = log w' → w = w'.
Proof.
  destruct w as [e f c r l ok], w' as [e' f' c' r' l' ok']. simpl.
  intros -> -> -> -> ->. f_equal. apply proof_irrel.
Qed.

Lemma world_eta (w : world) :
  World (environ w) (fs w) (cwd w) (root_logger w) (log w) (fs_ok w) = w.
Proof. by destruct w. Qed.

Lemma environ_get_set m w : environ (set_environ m w) = m.
Proof. done. Qed.
Lemma environ_set_set m m' w : set_environ m (set_environ m' w) = set_environ m w.
Proof. done. Qed.
Lemma environ_set_get w : set_environ (environ w) w = w.
Proof. apply world_eta. Qed.

(** [set_fs] with a well-formed filesystem. *)
Lemma fs_set_fs f w : Is_true (wf_fs f) → fs (set_fs f w) = f.
Proof. intros Hf. unfold set_fs. by destruct (decide _). Qed.

Lemma environ_set_fs f w : environ (set_fs f w) = environ w.
Proof. unfold set_fs. by destruct (decide _). Qed.
Lemma cwd_set_fs f w : cwd (set_fs f w) = cwd w.
Proof. unfold set_fs. by destruct (decide _). Qed.
Lemma root_logger_set_fs f w : root_logger (set_fs f w) = root_logger w.
Proof. unfold set_fs. by destruct (decide _). Qed.
Lemma log_set_fs f w : log (set_fs f w) = log w.
Proof. unfold set_fs. by destruct (decide _). Qed.

Lemma fs_get_set w' w : fs (set_fs (fs w') w) = fs w'.
Proof. apply fs_set_fs, fs_ok. Qed.
Lemma fs_set_set w' f w : set_fs (fs w') (set_fs f w) = set_fs (fs w') w.
Proof.
  apply world_eq; rewrite ?fs_get_set, ?environ_set_fs, ?cwd_set_fs,
    ?root_logger_set_fs, ?log_set_fs; done.
Qed.
Lemma fs_set_get w : set_fs (fs w) w = w.
Proof.
  apply world_eq; rewrite ?fs_get_set, ?environ_set_fs, ?cwd_set_fs,
    ?root_logger_set_fs, ?log_set_fs; done.
Qed.

(** Worlds that differ in the filesystem only. *)
Lemma set_fs_eq (w w' : world) :
  environ w' = environ w → cwd w' = cwd w →
  root_logger w' = root_logger w → log w' = log w →
  w' = set_fs (fs w') w.
Proof.
  intros. apply world_eq; rewrite ?fs_get_set, ?environ_set_fs, ?cwd_set_fs,
    ?root_logger_set_fs, ?log_set_fs; done.
Qed.

End lenses.

Create HintDb confined discriminated.
#[global] Hint Resolve environ_get_set environ_set_set environ_set_get
  fs_get_set fs_set_set fs_set_get : confined.
#[global] Hint Resolve confined_ret confined_raise confined_bind
  confined_try_except confined_for_each confined_if : confined.

(** ** The dotfile loader *)

Section loader.

(** The loop body does what the specification says of one line. *)
Lemma load_line_assignment (raw : string) :
  _load_dotenv_line raw =
    match Spec.assignment raw with
    | None => ret tt
    | Some (key, value) => environ_setdefault key value
    end.
Proof.
  unfold _load_dotenv_line, Spec.assignment.
  rewrite blank_or_comment_code.
  destruct (negb (truthy (strip raw)) || startswith (strip raw) "#"); [done|].
  destruct (partition "=" (strip raw)) as [[k m] v] eqn:Hp.
  rewrite (partition_split_first_eq _ _ _ _ Hp).
  rewrite <- (stripped_key_empty _ _ _ _ _ Hp).
  destruct (strip k); by simpl.
Qed.

(** The keys the loader sets hold no [=] and are not empty. *)
Lemma assignment_key (raw key value : string) :
  Spec.assignment raw = Some (key, value) →
  truthy key = true ∧ contains "=" key = false.
Proof.
  unfold Spec.assignment. destruct (Spec.blank_or_comment _); [done|].
  destruct (partition "=" (strip raw)) as [[k m] v] eqn:Hp.
  rewrite (partition_split_first_eq _ _ _ _ Hp).
  case_bool_decide as Hk; [done|]. intros [= <- <-]. split.
  - by destruct (strip k).
  - eapply contains_strip, partition_key_clean, Hp.
Qed.

Lemma setdefault_confined (key value : string) :
  confined environ set_environ (environ_setdefault key value).
Proof.
  intros w w0 Hw. unfold environ_setdefault, environ_setitem. rewrite Hw.
  destruct (environ w !! key); simpl.
  - by rewrite Hw, environ_set_get.
  - repeat (case_match; simpl); by rewrite ?Hw, ?environ_set_get.
Qed.

Lemma load_line_confined (raw : string) :
  confined environ set_environ (_load_dotenv_line raw).
Proof.
  rewrite load_line_assignment. destruct (Spec.assignment raw) as [[k v]|].
  - apply setdefault_confined.
  - apply confined_ret; auto with confined.
Qed.

Lemma load_lines_confined (ls : list string) :
  confined environ set_environ (for_each ls _load_dotenv_line).
Proof.
  apply confined_for_each; auto using load_line_confined with confined.
Qed.

(** [setdefault] in full: a key that is set stays as it is; a key that is
    not set is set, unless [putenv] refuses it. *)
Lemma setdefault_cases (key value : string) (w : world) :
  (is_Some (environ w !! key) ∧ environ_setdefault key value w = (w, Return tt))
  ∨ (environ w !! key = None
     ∧ environ_setdefault key value w
       = (set_environ (<[key := value]> (environ w)) w, Return tt))
  ∨ (environ w !! key = None
     ∧ ∃ e, environ_setdefault key value w = (w, Raise e)).
Proof.
  unfold environ_setdefault, environ_setitem.
  destruct (environ w !! key) eqn:Hk; [left; eauto|right].
  repeat case_match; eauto.
Qed.

Lemma setdefault_mono (key value : string) (w : world) :
  environ w ⊆ environ (environ_setdefault key value w).1.
Proof.
  destruct (setdefault_cases key value w)
    as [[_ ->]|[[Hk ->]|[_ [e ->]]]]; simpl; [done| |done].
  by apply insert_subseteq.
Qed.

Lemma load_line_mono (raw : string) (w : world) :
  environ w ⊆ environ (_load_dotenv_line raw w).1.
Proof.
  rewrite load_line_assignment. destruct (Spec.assignment raw) as [[k v]|].
  - apply setdefault_mono.
  - done.
Qed.

(** The loop only ever adds to the environment. *)
Lemma load_lines_mono (ls : list string) (w : world) :
  environ w ⊆ environ (for_each ls _load_dotenv_line w).1.
Proof.
  revert w. induction ls as [|l ls IH]; intros w; simpl; [done|].
  unfold bind. pose proof (load_line_mono l w) as Hl.
  destruct (_load_dotenv_line l w) as [w1 [[]|e]]; simpl in *; [|done].
  etrans; [exact Hl | apply IH].
Qed.

(** A line that went through once does nothing from then on. *)
Lemma load_line_again (raw : string) (w w1 w2 : world) :
  _load_dotenv_line raw w = (w1, Return tt) →
  environ w1 ⊆ environ w2 →
  _load_dotenv_line raw w2 = (w2, Return tt).
Proof.
  rewrite load_line_assignment.
  destruct (Spec.assignment raw) as [[k v]|]; [|done].
  intros Hrun Hsub.
  assert (is_Some (environ w1 !! k)) as [x Hx].
  { destruct (setdefault_cases k v w)
      as [[Hk Heq]|[[Hk Heq]|[_ [e Heq]]]]; rewrite Heq in Hrun.
    - by injection Hrun as <-.
    - injection Hrun as <-. simpl. rewrite lookup_insert_eq. eauto.
    - done. }
  unfold environ_setdefault.
  by rewrite (lookup_weaken _ _ _ _ Hx Hsub).
Qed.

(** A line that raises has changed nothing. *)
Lemma load_line_raise (raw : string) (w w1 : world) (e : exn) :
  _load_dotenv_line raw w = (w1, Raise e) → w1 = w.
Proof.
  rewrite load_line_assignment.
  destruct (Spec.assignment raw) as [[k v]|]; [|done].
  destruct (setdefault_cases k v w)
    as [[_ ->]|[[_ ->]|[_ [e' ->]]]]; congruence.
Qed.

(** Running the loop a second time, from where the first run ended,
    changes nothing and ends the same way. *)
Lemma load_lines_again (ls : list string) (w w' : world) (r : outcome unit) :
  for_each ls _load_dotenv_line w = (w', r) →
  for_each ls _load_dotenv_line w' = (w', r).
Proof.
  revert w. induction ls as [|l ls IH]; intros w; simpl.
  - by intros [= <- <-].
  - unfold bind.
    destruct (_load_dotenv_line l w) as [w1 [[]|e]] eqn:Hl.
    + intros Hrest. pose proof (load_lines_mono ls w1) as Hm.
      rewrite Hrest in Hm. simpl in Hm.
      rewrite (load_line_again l w w1 w' Hl Hm). by eapply IH.
    + intros [= <- <-]. pose proof (load_line_raise _ _ _ _ Hl) as ->.
      by rewrite Hl.
Qed.

End loader.

(** ** Creating directories *)

Section mkdir.

(** [is_dir()] and [is_file()] answer by what the system finds at the
    path. *)
Lemma Path_is_dir_unfold (p : path) (w : world) :
  Path_is_dir p w =
    (w, if has_nul p then Return false
        else match walk (fs w) p with
             | Dir _ => Return true
             | File _ => Return false
             | Denied e => stat_refused e p
             end).
Proof.
  unfold Path_is_dir, try_except, bind, os_stat.
  destruct (has_nul p); [done|].
  destruct (walk (fs w) p) as [d|c|e];
    cbn [is_OSError is_ValueError orb]; unfold ret, raise, stat_refused;
    try done.
  by destruct (_ignore_error (OSError e p)).
Qed.

Lemma Path_is_file_unfold (p : path) (w : world) :
  Path_is_file p w = (w, is_file_answer (fs w) p).
Proof.
  unfold Path_is_file, is_file_answer, try_except, bind, os_stat.
  destruct (has_nul p); [done|].
  destruct (walk (fs w) p) as [d|c|e];
    cbn [is_OSError is_ValueError orb]; unfold ret, raise, stat_refused;
    try done.
  by destruct (_ignore_error (OSError e p)).
Qed.

(** [os.mkdir] on a name that is taken. *)
Lemma os_mkdir_exists (p : path) (n : node) (w : world) :
  fs w !! p = Some n → (∀ e, n ≠ Denied e) →
  os_mkdir p w = (w, Raise (OSError EEXIST p)).
Proof.
  intros Hp Hn. unfold os_mkdir. rewrite (fs_no_nul _ _ _ Hp).
  destruct p as [|name parent].
  - rewrite (walk_present _ _ _ Hp Hn).
    destruct n as [d|c|e]; [done..|by destruct (Hn e)].
  - destruct (fs_parent _ _ _ _ Hp Hn) as [d Hd].
    rewrite (proj2 (walk_dir _ _ _) Hd), Hp.
    destruct n as [d'|c|e]; [done..|by destruct (Hn e)].
Qed.

(** [os.mkdir] refuses a path with a NUL, or makes one fresh directory in
    a directory that takes entries, or raises an [OSError]; when it
    raises, nothing has changed. *)
Lemma os_mkdir_cases (p : path) (w : world) :
  (has_nul p = true
   ∧ os_mkdir p w = (w, Raise (ValueError "embedded null byte")))
  ∨ (has_nul p = false ∧ fs w !! p = None
     ∧ (∃ name parent, p = name :: parent ∧ fs w !! parent = Some (Dir None))
     ∧ os_mkdir p w = (set_fs (<[p := Dir None]> (fs w)) w, Return tt)
     ∧ fs (set_fs (<[p := Dir None]> (fs w)) w) = <[p := Dir None]> (fs w))
  ∨ (has_nul p = false
     ∧ (∃ e, os_mkdir p w = (w, Raise (OSError e p)))
     ∧ ¬ (fs w !! p = None
          ∧ ∃ name parent, p = name :: parent
                           ∧ fs w !! parent = Some (Dir None))).
Proof.
  unfold os_mkdir. destruct (has_nul p) eqn:Hnul; [by left|right].
  destruct p as [|name parent].
  { right. split_and!; [done| |intros (_ & ? & ? & ? & _); done].
    destruct (walk (fs w) []); eauto. }
  destruct (walk (fs w) parent) as [fault|c|e] eqn:Hwalk.
  - apply walk_dir in Hwalk.
    destruct (fs w !! (name :: parent)) as [n|] eqn:Hp.
    { right. split_and!; [done| |intros [? _]; congruence].
      destruct n; eauto. }
    destruct fault as [e|].
    { right. split_and!; [done|eauto|].
      intros (_ & ? & ? & [= <- <-] & ?). congruence. }
    left. split_and!.
    + done.
    + done.
    + by exists name, parent.
    + done.
    + apply fs_set_fs. eapply wf_fs_mkdir; [apply fs_ok|done..].
  - right. split_and!; [done|eauto|].
    intros (_ & ? & ? & [= <- <-] & Hd).
    apply walk_dir in Hd. congruence.
  - right. split_and!; [done|eauto|].
    intros (_ & ? & ? & [= <- <-] & Hd).
    apply walk_dir in Hd. congruence.
Qed.

Lemma os_mkdir_confined (p : path) : confined fs set_fs (os_mkdir p).
Proof.
  intros w w0 Hw. unfold os_mkdir. rewrite Hw.
  destruct (has_nul p) eqn:Hnul;
    [cbn [fst snd]; by rewrite Hw, fs_set_get|].
  destruct p as [|name parent].
  { destruct (walk (fs w) []); cbn [fst snd]; by rewrite Hw, fs_set_get. }
  destruct (walk (fs w) parent) as [fault|c|e] eqn:Hwalk;
    try (cbn [fst snd]; by rewrite Hw, fs_set_get).
  destruct (fs w !! (name :: parent)) as [[d|c|e]|] eqn:Hp;
    try (cbn [fst snd]; by rewrite Hw, fs_set_get).
  destruct fault as [e|]; [cbn [fst snd]; by rewrite Hw, fs_set_get|].
  cbn [fst snd]. rewrite fs_set_fs; [done|].
  apply walk_dir in Hwalk.
  eapply wf_fs_mkdir; [apply fs_ok|done..].
Qed.

Lemma Path_is_dir_confined (p : path) : confined fs set_fs (Path_is_dir p).
Proof.
  intros w w0 Hw. rewrite !Path_is_dir_unfold. cbn [fst snd].
  by rewrite Hw, fs_set_get.
Qed.

Lemma Path_mkdir_here_confined (p : path) :
  confined fs set_fs (Path_mkdir_here p).
Proof.
  unfold Path_mkdir_here.
  auto 10 using os_mkdir_confined, Path_is_dir_confined with confined.
Qed.

Lemma Path_mkdir_confined (p : path) : confined fs set_fs (Path_mkdir p).
Proof.
  induction p as [|name parent IH]; cbn [Path_mkdir];
    auto 10 using os_mkdir_confined, Path_is_dir_confined,
      Path_mkdir_here_confined with confined.
Qed.

(** What the handler of [except OSError] does with an error [e] that is
    not [FileNotFoundError]: it drops it when the path is a directory. *)
Lemma settle_cases (p : path) (e : exn) (w : world) :
  (is_dir_in (fs w) p
   ∧ bind (Path_is_dir p) (fun b : bool => if b then ret tt else raise e) w
     = (w, Return tt))
  ∨ (¬ is_dir_in (fs w) p
     ∧ ∃ e', bind (Path_is_dir p) (fun b : bool => if b then ret tt else raise e) w
             = (w, Raise e')
             ∧ (is_OSError e = true → is_OSError e' = true)).
Proof.
  unfold bind. rewrite Path_is_dir_unfold.
  destruct (has_nul p) eqn:Hnul.
  { right. split; [|by exists e].
    intros [d Hd]. pose proof (fs_no_nul _ _ _ Hd). congruence. }
  destruct (walk (fs w) p) as [d|c|en] eqn:Hwalk.
  - left. split; [exists d; by apply walk_dir|done].
  - right. split; [|by exists e].
    intros [d Hd]. apply walk_dir in Hd. congruence.
  - right. split; [intros [d Hd]; apply walk_dir in Hd; congruence|].
    unfold stat_refused.
    destruct (_ignore_error (OSError en p)); by eexists.
Qed.

Lemma Path_mkdir_unfold (p : path) (w : world) :
  Path_mkdir p w =
    try_except (os_mkdir p) is_OSError (fun e =>
      if is_FileNotFoundError e then
        match p with
        | [] => raise e
        | _ :: parent => bind (Path_mkdir parent) (fun _ => Path_mkdir_here p)
        end
      else bind (Path_is_dir p) (fun b : bool => if b then ret tt else raise e)) w.
Proof. by destruct p. Qed.

(** On an existing directory [mkdir(parents=True, exist_ok=True)] does
    nothing. *)
Lemma Path_mkdir_dir (p : path) (w : world) :
  is_dir_in (fs w) p → Path_mkdir p w = (w, Return tt).
Proof.
  intros [d Hd]. rewrite Path_mkdir_unfold. unfold try_except.
  rewrite (os_mkdir_exists _ _ _ Hd) by done.
  cbn [is_OSError is_FileNotFoundError]. unfold bind.
  rewrite Path_is_dir_unfold, (fs_no_nul _ _ _ Hd).
  by rewrite (proj2 (walk_dir _ _ _) Hd).
Qed.

(** [mkdir(parents=False, exist_ok=True)], case by case. *)
Lemma Path_mkdir_here_cases (p : path) (w : world) :
  (has_nul p = true
   ∧ Path_mkdir_here p w = (w, Raise (ValueError "embedded null byte")))
  ∨ (has_nul p = false ∧ fs w !! p = None
     ∧ Path_mkdir_here p w = (set_fs (<[p := Dir None]> (fs w)) w, Return tt)
     ∧ fs (set_fs (<[p := Dir None]> (fs w)) w) = <[p := Dir None]> (fs w))
  ∨ (has_nul p = false ∧ is_dir_in (fs w) p
     ∧ Path_mkdir_here p w = (w, Return tt))
  ∨ (has_nul p = false ∧ ¬ is_dir_in (fs w) p
     ∧ (∃ e, Path_mkdir_here p w = (w, Raise e) ∧ is_OSError e = true)
     ∧ ¬ (fs w !! p = None
          ∧ ∃ name parent, p = name :: parent
                           ∧ fs w !! parent = Some (Dir None))).
Proof.
  unfold Path_mkdir_here, try_except.
  destruct (os_mkdir_cases p w)
    as [[Hnul ->]|[(Hnul & Hp & _ & -> & Hfs)|(Hnul & [e H0] & Hno)]].
  - by left.
  - right; left. done.
  - rewrite H0. cbn [is_OSError].
    destruct (is_FileNotFoundError (OSError e p)) eqn:Hfnf.
    + assert (¬ is_dir_in (fs w) p) as Hnd.
      { intros [d Hd]. rewrite (os_mkdir_exists _ _ _ Hd) in H0 by done.
        injection H0 as <-. done. }
      right; right; right. split_and!; [done|done| |done]. by eexists.
    + destruct (settle_cases p (OSError e p) w)
        as [[Hdir ->]|[Hnd (e' & -> & He')]].
      * right; right; left. done.
      * right; right; right. split_and!; [done|done| |done].
        exists e'. split; [done|]. by apply He'.
Qed.

(** What [mkdir(parents=True, exist_ok=True)] does.  Nothing that
    existed has changed, and whatever is new is a plain directory at the
    path or above it.  When it returns, the path is a directory.  When it
    raises, the path is as it was and is no directory, and the error is an
    [OSError], or the [ValueError] for a NUL, raised before anything was
    done. *)
Lemma Path_mkdir_spec (p : path) (w : world) :
  fs w ⊆ fs (Path_mkdir p w).1
  ∧ (∀ q, fs w !! q = None → is_Some (fs (Path_mkdir p w).1 !! q) →
          fs (Path_mkdir p w).1 !! q = Some (Dir None) ∧ q `suffix_of` p)
  ∧ match (Path_mkdir p w).2 with
    | Return _ => is_dir_in (fs (Path_mkdir p w).1) p
    | Raise e =>
        fs (Path_mkdir p w).1 !! p = fs w !! p
        ∧ ¬ is_dir_in (fs (Path_mkdir p w).1) p
        ∧ if has_nul p
          then e = ValueError "embedded null byte" ∧ (Path_mkdir p w).1 = w
          else is_OSError e = true
    end.
Proof.
  revert w. induction p as [|name parent IH]; intros w.
  all: match goal with |- context [Path_mkdir ?p ?w0] =>
    rewrite (Path_mkdir_unfold p w0); unfold try_except;
    destruct (os_mkdir_cases p w0)
      as [[Hnul ->]|[(Hnul & Hp & _ & -> & Hfs)|(Hnul & [e H0] & Hno)]];
    [cbn [is_OSError fst snd]; rewrite Hnul;
     split_and!; try done; try (intros q Hq [x Hx]; congruence);
     intros [d Hd]; pose proof (fs_no_nul _ _ _ Hd); congruence
    |cbn [fst snd]; rewrite Hfs; split_and!;
     [by apply insert_subseteq
     |intros q Hq [x Hx];
      destruct (decide (q = p)) as [->|Hne];
      [by rewrite lookup_insert_eq
      |rewrite lookup_insert_ne in Hx by done; congruence]
     |eexists; apply lookup_insert_eq]
    |rewrite H0; cbn [is_OSError];
     assert (is_FileNotFoundError (OSError e p) = true → ¬ is_dir_in (fs w0) p)
       as Hnd by (intros Hfnf [d Hd];
                  rewrite (os_mkdir_exists _ _ _ Hd) in H0 by done;
                  injection H0 as <-; done);
     destruct (is_FileNotFoundError (OSError e p)) eqn:Hfnf;
     [|destruct (settle_cases p (OSError e p) w0)
         as [[Hdir ->]|[Hndir (e' & -> & He')]]; cbn [fst snd];
       rewrite ?Hnul; split_and!; try done;
       try (intros q Hq [x Hx]; congruence); by apply He']]
  end.
  - unfold raise. cbn [fst snd]. rewrite Hnul.
    split_and!; [done|intros q Hq [x Hx]; congruence|done|by apply Hnd|done].
  - unfold bind.
    specialize (IH w).
    assert (has_nul parent = false) as Hnul'
      by (apply (has_nul_suffix parent (name :: parent)); [by apply suffix_cons_r|done]).
    destruct (Path_mkdir parent w) as [w2 [[]|e2]] eqn:Hrec;
      cbn [fst snd] in IH |- *.
    2: { destruct IH as (Hsub & Hnew & Hsame & Hndir & Herr).
         rewrite Hnul. rewrite Hnul' in Herr.
         split_and!; [done| | | |done].
         - intros q Hq Hx. destruct (Hnew q Hq Hx).
           split; [done|by apply suffix_cons_r].
         - destruct (fs w !! (name :: parent)) as [n|] eqn:Hw.
           + by apply (lookup_weaken _ _ _ _ Hw).
           + destruct (fs w2 !! (name :: parent)) eqn:Hx; [|done].
             destruct (Hnew _ Hw) as [_ Hsuf]; [by eauto|].
             by apply suffix_cons_not in Hsuf.
         - intros [d Hd]. apply Hndir.
           by apply (fs_parent w2 name parent (Dir d)). }
    destruct IH as (Hsub & Hnew & Hdir).
    assert (∀ q, ¬ q `suffix_of` parent → fs w2 !! q = fs w !! q) as Hkeep.
    { intros q Hq. destruct (fs w !! q) as [n|] eqn:Hw.
      - by apply (lookup_weaken _ _ _ _ Hw).
      - destruct (fs w2 !! q) eqn:Hx; [|done].
        destruct (Hnew _ Hw) as [_ Hsuf]; [by eauto|]. done. }
    destruct (Path_mkdir_here_cases (name :: parent) w2)
      as [[? _]|[(_ & Hp2 & -> & Hfs2)|[(_ & Hd2 & ->)|(_ & Hnd2 & (e3 & -> & He3) & _)]]];
      [congruence|..]; cbn [fst snd].
    + rewrite Hfs2. split_and!.
      * etrans; [exact Hsub|]. by apply insert_subseteq.
      * intros q Hq [x Hx].
        destruct (decide (q = name :: parent)) as [->|Hne].
        -- by rewrite lookup_insert_eq.
        -- rewrite lookup_insert_ne in Hx |- * by done.
           destruct (Hnew q Hq) as [? ?]; [by eauto|].
           split; [done|by apply suffix_cons_r].
      * eexists; apply lookup_insert_eq.
    + split_and!; [done| |done].
      intros q Hq Hx. destruct (Hnew q Hq Hx).
      split; [done|by apply suffix_cons_r].
    + rewrite Hnul. split_and!; [done| | |done|done].
      * intros q Hq Hx. destruct (Hnew q Hq Hx).
        split; [done|by apply suffix_cons_r].
      * apply Hkeep. apply suffix_cons_not.
Qed.

Lemma Path_mkdir_nul (p : path) (w : world) :
  has_nul p = true →
  Path_mkdir p w = (w, Raise (ValueError "embedded null byte")).
Proof.
  intros Hnul. rewrite Path_mkdir_unfold. unfold try_except, os_mkdir.
  by rewrite Hnul.
Qed.

Lemma same_end_refl (r : outcome unit) : same_end r r.
Proof. by destruct r. Qed.

Lemma Path_mkdir_again_step (p : path) (w w1 : world) (r : outcome unit) :
  has_nul p = false →
  (∀ name parent w w1 r, p = name :: parent →
     Path_mkdir parent w = (w1, r) →
     ∃ r', Path_mkdir parent w1 = (w1, r') ∧ same_end r r') →
  Path_mkdir p w = (w1, r) →
  ∃ r', Path_mkdir p w1 = (w1, r') ∧ same_end r r'.
Proof.
  intros Hnul IH Hrun.
  assert (w1 = w → ∃ r', Path_mkdir p w1 = (w1, r') ∧ same_end r r')
    as Hsame by (intros ->; exists r; split; [done|apply same_end_refl]).
  assert (is_dir_in (fs w1) p → r = Return tt →
          ∃ r', Path_mkdir p w1 = (w1, r') ∧ same_end r r')
    as Hmade by (intros Hdir ->; exists (Return tt);
                 by rewrite Path_mkdir_dir).
  rewrite Path_mkdir_unfold in Hrun. unfold try_except in Hrun.
  destruct (os_mkdir_cases p w)
    as [[? _]|[(_ & Hp & _ & H0 & Hfs)|(_ & [e H0] & Hno)]];
    [congruence|..]; rewrite H0 in Hrun; cbn [is_OSError] in Hrun.
  { injection Hrun as <- <-. apply Hmade; [|done].
    rewrite Hfs. eexists; apply lookup_insert_eq. }
  destruct (is_FileNotFoundError (OSError e p)) eqn:Hfnf.
  2: { destruct (settle_cases p (OSError e p) w)
         as [[Hdir Hs]|[Hndir (e' & Hs & He')]]; rewrite Hs in Hrun;
         injection Hrun as <- <-; by apply Hsame. }
  destruct p as [|name parent]; [injection Hrun as <- <-; by apply Hsame|].
  unfold bind in Hrun.
  destruct (Path_mkdir parent w) as [w2 r2] eqn:Hrec.
  destruct (IH _ _ _ _ _ eq_refl Hrec) as (r2' & Hrec' & Hend).
  destruct r2 as [[]|e2].
  - destruct r2' as [[]|]; [|done].
    destruct (Path_mkdir_here_cases (name :: parent) w2)
      as [[? _]|[(_ & Hp2 & Hh & Hfs2)|[(_ & Hd2 & Hh)
         |(_ & Hnd2 & (e3 & Hh & He3) & Hno2)]]];
      [congruence|..]; rewrite Hh in Hrun; injection Hrun as <- <-.
    + apply Hmade; [|done]. rewrite Hfs2. eexists; apply lookup_insert_eq.
    + by apply Hmade.
    + rewrite Path_mkdir_unfold. unfold try_except.
      destruct (os_mkdir_cases (name :: parent) w2)
        as [[? _]|[(_ & Hp3 & Hpar3 & _)|(_ & [e4 ->] & _)]];
        [congruence|by destruct Hno2|]. cbn [is_OSError].
      destruct (is_FileNotFoundError (OSError e4 (name :: parent))).
      * unfold bind. rewrite Hrec', Hh. exists (Raise e3).
        split; [done|apply same_end_refl].
      * destruct (settle_cases (name :: parent)
                    (OSError e4 (name :: parent)) w2)
          as [[Hdir _]|[_ (e' & -> & He')]]; [done|].
        exists (Raise e'). split; [done|]. simpl.
        rewrite He3, He' by done. done.
  - injection Hrun as <- <-. destruct r2' as [|e2']; [done|].
    destruct Hend as [Hcls Heq].
    assert (¬ is_dir_in (fs w2) parent) as Hnpd.
    { intros Hdir. by rewrite (Path_mkdir_dir _ _ Hdir) in Hrec'. }
    assert (is_OSError e2 = true) as He2.
    { pose proof (Path_mkdir_spec parent w) as (_ & _ & Hs).
      rewrite Hrec in Hs. cbn [fst snd] in Hs. destruct Hs as (_ & _ & Hs).
      rewrite (has_nul_suffix parent (name :: parent)) in Hs;
        [done|by apply suffix_cons_r|done]. }
    rewrite Path_mkdir_unfold. unfold try_except.
    destruct (os_mkdir_cases (name :: parent) w2)
      as [[? _]|[(_ & _ & (n0 & p0 & [= <- <-] & Hpar3) & _)
         |(_ & [e4 ->] & _)]]; [congruence|by destruct Hnpd; eexists|].
    cbn [is_OSError].
    destruct (is_FileNotFoundError (OSError e4 (name :: parent))).
    + unfold bind. rewrite Hrec'. exists (Raise e2').
      split; [done|]. exact (conj Hcls Heq).
    + destruct (settle_cases (name :: parent)
                  (OSError e4 (name :: parent)) w2)
        as [[Hdir _]|[_ (e' & -> & He')]].
      * destruct Hnpd. destruct Hdir as [d Hd].
        by apply (fs_parent w2 name parent (Dir d)).
      * exists (Raise e'). split; [done|]. simpl.
        rewrite He2, He' by done. done.
Qed.

(** A second [mkdir], from where the first one ended, makes nothing and
    ends as the first one did: it returns if the first one returned, and
    raises an error of the same class if the first one raised. *)
Lemma Path_mkdir_again (p : path) (w w1 : world) (r : outcome unit) :
  Path_mkdir p w = (w1, r) →
  ∃ r', Path_mkdir p w1 = (w1, r') ∧ same_end r r'.
Proof.
  destruct (has_nul p) eqn:Hnul.
  { rewrite (Path_mkdir_nul p w Hnul). intros [= <- <-].
    rewrite (Path_mkdir_nul p w Hnul). by eexists. }
  revert w w1 r Hnul. induction p as [|name parent IH]; intros w w1 r Hnul.
  - apply Path_mkdir_again_step; [done|]. intros ??????. done.
  - apply Path_mkdir_again_step; [done|].
    intros name' parent' w' w1' r' [= <- <-]. apply IH.
    apply (has_nul_suffix parent (name :: parent)); [by apply suffix_cons_r|done].
Qed.

(** With the project root in place, what [is_file] answers for the
    dotfile depends on what stands at the dotfile's path only. *)
Lemma is_file_answer_stable (root : path) (w w' : world) :
  is_dir_in (fs w) root → fs w ⊆ fs w' →
  fs w' !! dotenv_path root = fs w !! dotenv_path root →
  is_file_answer (fs w') (dotenv_path root)
  = is_file_answer (fs w) (dotenv_path root).
Proof.
  intros [d Hd] Hsub Hp. unfold is_file_answer, dotenv_path, joinpath in *.
  cbn [walk].
  rewrite (proj2 (walk_dir w root d) Hd).
  rewrite (proj2 (walk_dir w' root d) (lookup_weaken _ _ _ _ Hd Hsub)).
  by rewrite Hp.
Qed.


Local Open Scope list_scope.


Local Close Scope list_scope.

End mkdir.

(** ** The bootstrap as a whole *)

Section bootstrap.

Lemma for_each_app {A} (l1 l2 : list A) (body : A → M unit) (w : world) :
  for_each (l1 ++ l2) body w = (for_each l1 body ;; for_each l2 body) w.
Proof.
  revert w. induction l1 as [|x l1 IH]; intros w; simpl.
  - done.
  - unfold bind. destruct (body x w) as [w1 [[]|e]]; [|done]. apply IH.
Qed.

Lemma for_line_in_confined (fh : string * bool) :
  confined environ set_environ (for_line_in fh _load_dotenv_line).
Proof.
  unfold for_line_in.
  auto 10 using load_lines_confined with confined.
Qed.

Lemma for_line_in_mono (fh : string * bool) (w : world) :
  environ w ⊆ environ (for_line_in fh _load_dotenv_line w).1.
Proof.
  unfold for_line_in, bind.
  pose proof (load_lines_mono (lines fh.1) w) as Hm.
  destruct (for_each (lines fh.1) _load_dotenv_line w) as [w1 [[]|e]];
    [|done].
  by destruct fh.2.
Qed.

Lemma for_line_in_again (fh : string * bool) (w w' : world) (r : outcome unit) :
  for_line_in fh _load_dotenv_line w = (w', r) →
  for_line_in fh _load_dotenv_line w' = (w', r).
Proof.
  unfold for_line_in, bind.
  destruct (for_each (lines fh.1) _load_dotenv_line w)
    as [w1 [[]|e]] eqn:Hrun.
  - intros Hend. assert (w' = w1) as ->.
    { destruct fh.2; unfold raise, ret in Hend; congruence. }
    by rewrite (load_lines_again _ _ _ _ Hrun).
  - intros [= <- <-]. by rewrite (load_lines_again _ _ _ _ Hrun).
Qed.

(** [_load_dotenv], case by case on what stands at the path: the lines
    of a text are gone through, and anything else makes [open] raise. *)
Lemma load_dotenv_unfold (p : path) (w : world) :
  _load_dotenv p w =
    match fs w !! p with
    | Some (Dir _) => (w, Raise (OSError EISDIR p))
    | Some (File (Unopenable e)) => (w, Raise (OSError e p))
    | Some (File (Text s bad)) => for_line_in (s, bad) _load_dotenv_line w
    | _ =>
        (w, Raise (if has_nul p then ValueError "embedded null byte"
                   else OSError (match walk (fs w) p with
                                 | Denied e => e
                                 | _ => ENOENT
                                 end) p))
    end.
Proof.
  unfold _load_dotenv, bind, Path_open.
  destruct (has_nul p) eqn:Hnul.
  { destruct (fs w !! p) as [n|] eqn:Hp; [|done].
    pose proof (fs_no_nul _ _ _ Hp). congruence. }
  destruct (fs w !! p) as [[d|c|e]|] eqn:Hp.
  - by rewrite (proj2 (walk_dir _ _ _) Hp).
  - rewrite (proj2 (walk_file _ _ _) Hp). by destruct c.
  - destruct (walk (fs w) p) as [d|c|e'] eqn:Hwalk; [| |done].
    + apply walk_dir in Hwalk. congruence.
    + apply walk_file in Hwalk. congruence.
  - destruct (walk (fs w) p) as [d|c|e'] eqn:Hwalk; [| |done].
    + apply walk_dir in Hwalk. congruence.
    + apply walk_file in Hwalk. congruence.
Qed.

(** [_load_dotenv] writes the environment only. *)
Lemma load_dotenv_frame (p : path) (w : world) :
  (_load_dotenv p w).1 = set_environ (environ (_load_dotenv p w).1) w.
Proof.
  rewrite load_dotenv_unfold.
  destruct (fs w !! p) as [[d|[e|s bad]|e]|]; simpl;
    try by rewrite environ_set_get.
  apply (confined_self environ set_environ), for_line_in_confined.
Qed.

Lemma load_dotenv_fs (p : path) (w : world) : fs (_load_dotenv p w).1 = fs w.
Proof. by rewrite load_dotenv_frame. Qed.

Lemma load_dotenv_log (p : path) (w : world) : log (_load_dotenv p w).1 = log w.
Proof. by rewrite load_dotenv_frame. Qed.

Lemma load_dotenv_mono (p : path) (w : world) :
  environ w ⊆ environ (_load_dotenv p w).1.
Proof.
  rewrite load_dotenv_unfold.
  destruct (fs w !! p) as [[d|[e|s bad]|e]|]; simpl; try done.
  apply for_line_in_mono.
Qed.

Lemma load_dotenv_respects (p : path) (w w' : world) :
  same_state w w' →
  same_state (_load_dotenv p w).1 (_load_dotenv p w').1
  ∧ (_load_dotenv p w).2 = (_load_dotenv p w').2.
Proof.
  intros [Henv Hfs]. rewrite !load_dotenv_unfold, Hfs.
  destruct (fs w' !! p) as [[d|[e|s bad]|e]|]; simpl; try done.
  rewrite (for_line_in_confined (s, bad) w w') by done.
  rewrite (confined_self environ set_environ
             (for_line_in (s, bad) _load_dotenv_line) w')
    by apply for_line_in_confined.
  done.
Qed.

Lemma load_dotenv_again (p : path) (w w' : world) (r : outcome unit) :
  _load_dotenv p w = (w', r) → _load_dotenv p w' = (w', r).
Proof.
  intros Hrun. pose proof (load_dotenv_fs p w) as Hfs.
  rewrite Hrun in Hfs. simpl in Hfs.
  rewrite load_dotenv_unfold in Hrun |- *. rewrite Hfs.
  destruct (fs w !! p) as [[d|[e|s bad]|e]|]; try congruence.
  by eapply for_line_in_again.
Qed.

(** The dotfile step, by what [is_file] answers. *)
Lemma load_if_present_unfold (root : path) (w : world) :
  load_if_present root w =
    match is_file_answer (fs w) (dotenv_path root) with
    | Return true => _load_dotenv (dotenv_path root) w
    | Return false => (w, Return tt)
    | Raise e => (w, Raise e)
    end.
Proof.
  unfold load_if_present, bind. rewrite Path_is_file_unfold.
  by destruct (is_file_answer (fs w) (dotenv_path root)) as [[]|e].
Qed.

(** [is_file] says yes at a regular file and nowhere else. *)
Lemma is_file_answer_true (w : world) (p : path) :
  is_file_answer (fs w) p = Return true ↔ ∃ c, fs w !! p = Some (File c).
Proof.
  unfold is_file_answer, stat_refused. split.
  - destruct (has_nul p); [done|].
    destruct (walk (fs w) p) as [d|c|e] eqn:Hwalk; try done.
    + intros _. exists c. by apply walk_file.
    + by case_match.
  - intros [c Hc]. rewrite (fs_no_nul _ _ _ Hc).
    by rewrite (proj2 (walk_file _ _ _) Hc).
Qed.

Lemma is_file_answer_file (w : world) (p : path) (c : contents) :
  fs w !! p = Some (File c) → is_file_answer (fs w) p = Return true.
Proof. intros Hp. apply is_file_answer_true. by eauto. Qed.

(** When [is_file] raises, it is with an [OSError] that pathlib does not
    take for a missing file. *)
Lemma is_file_answer_raise (f : gmap path node) (p : path) (e : exn) :
  is_file_answer f p = Raise e → is_OSError e = true ∧ _ignore_error e = false.
Proof.
  unfold is_file_answer, stat_refused. destruct (has_nul p); [done|].
  destruct (walk f p) as [d|c|en]; try done.
  destruct (_ignore_error (OSError en p)) eqn:Hi; [done|].
  by intros [= <-].
Qed.

Lemma load_if_present_frame (root : path) (w : world) :
  (load_if_present root w).1
  = set_environ (environ (load_if_present root w).1) w.
Proof.
  rewrite load_if_present_unfold.
  destruct (is_file_answer (fs w) (dotenv_path root)) as [[]|e]; simpl;
    try by rewrite environ_set_get.
  apply load_dotenv_frame.
Qed.

Lemma load_if_present_mono (root : path) (w : world) :
  environ w ⊆ environ (load_if_present root w).1.
Proof.
  rewrite load_if_present_unfold.
  destruct (is_file_answer (fs w) (dotenv_path root)) as [[]|e]; simpl;
    try done.
  apply load_dotenv_mono.
Qed.

Lemma load_if_present_respects (root : path) (w w' : world) :
  same_state w w' →
  same_state (load_if_present root w).1 (load_if_present root w').1
  ∧ (load_if_present root w).2 = (load_if_present root w').2.
Proof.
  intros Hs. rewrite !load_if_present_unfold. destruct Hs as [Henv Hfs].
  rewrite Hfs.
  destruct (is_file_answer (fs w') (dotenv_path root)) as [[]|e]; simpl;
    try done.
  by apply load_dotenv_respects.
Qed.

Lemma load_if_present_again (root : path) (w w' : world) (r : outcome unit) :
  load_if_present root w = (w', r) → load_if_present root w' = (w', r).
Proof.
  intros Hrun. pose proof (load_if_present_frame root w) as Hfr.
  rewrite Hrun in Hfr. simpl in Hfr.
  assert (fs w' = fs w) as Hfs by by rewrite Hfr.
  rewrite load_if_present_unfold in Hrun |- *. rewrite Hfs.
  destruct (is_file_answer (fs w) (dotenv_path root)) as [[]|e];
    try congruence.
  by eapply load_dotenv_again.
Qed.

End bootstrap.

Section ensure.

Lemma Path_mkdir_frame (p : path) (w : world) :
  (Path_mkdir p w).1 = set_fs (fs (Path_mkdir p w).1) w.
Proof. apply (confined_self fs set_fs), Path_mkdir_confined. Qed.

(** [mkdir] touches the filesystem only. *)
Lemma Path_mkdir_rest (p : path) (w : world) :
  environ (Path_mkdir p w).1 = environ w
  ∧ cwd (Path_mkdir p w).1 = cwd w
  ∧ root_logger (Path_mkdir p w).1 = root_logger w
  ∧ log (Path_mkdir p w).1 = log w.
Proof.
  rewrite Path_mkdir_frame.
  by rewrite environ_set_fs, cwd_set_fs, root_logger_set_fs, log_set_fs.
Qed.

(** Whatever [mkdir] does, what was in the filesystem stays. *)
Lemma Path_mkdir_mono (p : path) (w : world) : fs w ⊆ fs (Path_mkdir p w).1.
Proof. apply Path_mkdir_spec. Qed.

(** Making [project_root/data/processed] never creates
    [project_root/.env]. *)
Lemma Path_mkdir_dotenv (root : path) (w : world) :
  fs (Path_mkdir (processed_dir root) w).1 !! dotenv_path root
  = fs w !! dotenv_path root.
Proof.
  destruct (Path_mkdir_spec (processed_dir root) w) as (Hm & Hnew & _).
  destruct (fs w !! dotenv_path root) as [n|] eqn:Hn.
  - by apply (lookup_weaken _ _ _ _ Hn).
  - destruct (fs (Path_mkdir (processed_dir root) w).1 !! dotenv_path root)
      as [n'|] eqn:Hn'; [|done].
    destruct (Hnew _ Hn) as [_ Hsuf]; [by eauto|]. exfalso.
    unfold dotenv_path, processed_dir, joinpath in Hsuf.
    apply suffix_cons_inv in Hsuf as [[=]|Hsuf].
    apply suffix_cons_inv in Hsuf as [[=]|Hsuf].
    by apply suffix_cons_not in Hsuf.
Qed.

(** [_ensure_data_directories], case by case on how [mkdir] ends: an
    [OSError] is logged, another error goes to the caller. *)
Lemma ensure_unfold (root : path) (w : world) :
  _ensure_data_directories root w =
    match Path_mkdir (processed_dir root) w with
    | (w', Return _) => load_if_present root w'
    | (w', Raise e) =>
        if is_OSError e
        then load_if_present root
               (set_log (log w' ++ [mkdir_warning root e]) w')
        else (w', Raise e)
    end.
Proof.
  unfold _ensure_data_directories. unfold bind at 1. unfold try_except.
  fold (processed_dir root). fold (dotenv_path root).
  destruct (Path_mkdir (processed_dir root) w) as [w' [u|e]]; [done|].
  by destruct (is_OSError e).
Qed.

Lemma configure_unfold (root : option path) (w : world) (pr : path) :
  project_root_is root w pr →
  configure_environment root w
  = _ensure_data_directories pr (_configure_logging w).1.
Proof.
  unfold configure_environment, bind, _configure_logging, logging_basicConfig.
  destruct root as [p|]; simpl.
  - intros ->. by destruct (root_logger w).
  - intros [-> [d Hd]]. unfold Path_cwd.
    rewrite (proj2 (walk_dir _ _ _) Hd). by destruct (root_logger w).
Qed.

(** Without a project root, and without a working directory to take its
    place, nothing is done. *)
Lemma configure_no_cwd (w : world) :
  ¬ is_dir_in (fs w) (cwd w) →
  ∃ e, configure_environment None w = (w, Raise (OSError e (cwd w))).
Proof.
  intros Hnd. unfold configure_environment, bind, Path_cwd.
  destruct (walk (fs w) (cwd w)) as [d|c|e] eqn:Hc; try by eexists.
  destruct Hnd. exists d. by apply walk_dir.
Qed.

Lemma project_root_cases (root : option path) (w : world) :
  project_root_is root w (default (cwd w) root)
  ∨ (root = None ∧ ¬ is_dir_in (fs w) (cwd w)).
Proof.
  destruct root as [p|]; [by left|]. simpl.
  destruct (fs w !! cwd w) as [[d|c|e]|] eqn:Hc.
  - left. split; [done|by exists d].
  - right. split; [done|]. intros [d Hd]. congruence.
  - right. split; [done|]. intros [d Hd]. congruence.
  - right. split; [done|]. intros [d Hd]. congruence.
Qed.

Lemma project_root_default (root : option path) (w : world) (pr : path) :
  project_root_is root w pr → pr = default (cwd w) root.
Proof. destruct root; simpl; [done|]. by intros [-> _]. Qed.

Lemma configure_logging_state (w : world) :
  same_state (_configure_logging w).1 w
  ∧ log (_configure_logging w).1 = log w
  ∧ cwd (_configure_logging w).1 = cwd w
  ∧ is_Some (root_logger (_configure_logging w).1).
Proof.
  unfold _configure_logging, logging_basicConfig, same_state.
  destruct (root_logger w) eqn:Hr; simpl; rewrite ?Hr; eauto.
Qed.

Lemma ensure_frame (root : path) (w : world) :
  cwd (_ensure_data_directories root w).1 = cwd w
  ∧ root_logger (_ensure_data_directories root w).1 = root_logger w.
Proof.
  rewrite ensure_unfold.
  destruct (Path_mkdir_rest (processed_dir root) w) as (_ & Hc & Hr & _).
  destruct (Path_mkdir (processed_dir root) w) as [w' [u|e]];
    cbn [fst snd] in *.
  - by rewrite load_if_present_frame.
  - destruct (is_OSError e); [by rewrite load_if_present_frame|done].
Qed.

Lemma ensure_mono (root : path) (w : world) :
  environ w ⊆ environ (_ensure_data_directories root w).1.
Proof.
  rewrite ensure_unfold.
  destruct (Path_mkdir_rest (processed_dir root) w) as (He & _).
  destruct (Path_mkdir (processed_dir root) w) as [w' [u|e]];
    cbn [fst snd] in *.
  - rewrite <- He. apply load_if_present_mono.
  - destruct (is_OSError e); [|simpl; by rewrite He].
    etrans; [|apply load_if_present_mono]. simpl. by rewrite He.
Qed.

(** [_ensure_data_directories] keeps what is in the filesystem, and adds
    directories only, at [data/processed] or above it. *)
Lemma ensure_fs (root : path) (w : world) :
  fs w ⊆ fs (_ensure_data_directories root w).1
  ∧ ∀ q, fs w !! q = None →
         is_Some (fs (_ensure_data_directories root w).1 !! q) →
         fs (_ensure_data_directories root w).1 !! q = Some (Dir None)
         ∧ q `suffix_of` processed_dir root.
Proof.
  rewrite ensure_unfold.
  destruct (Path_mkdir_spec (processed_dir root) w) as (Hm & Hnew & _).
  destruct (Path_mkdir (processed_dir root) w) as [w' [u|e]];
    cbn [fst snd] in *.
  - by rewrite load_if_present_frame.
  - destruct (is_OSError e); [by rewrite load_if_present_frame|done].
Qed.

Lemma ensure_respects (root : path) (w w' : world) :
  same_state w w' →
  same_state (_ensure_data_directories root w).1
             (_ensure_data_directories root w').1
  ∧ (_ensure_data_directories root w).2
    = (_ensure_data_directories root w').2.
Proof.
  intros [Henv Hfs]. rewrite !ensure_unfold.
  rewrite (Path_mkdir_confined (processed_dir root) w w') by done.
  destruct (Path_mkdir_rest (processed_dir root) w') as (He & _).
  pose proof (Path_mkdir_frame (processed_dir root) w') as Hf.
  destruct (Path_mkdir (processed_dir root) w') as [w1 [u|e]];
    cbn [fst snd] in *.
  - apply load_if_present_respects.
    split; [rewrite environ_set_fs; congruence|by rewrite fs_get_set].
  - destruct (is_OSError e).
    + apply load_if_present_respects.
      split; simpl; [rewrite environ_set_fs; congruence|by rewrite fs_get_set].
    + split; [|done]. cbn [fst].
      split; [rewrite environ_set_fs; congruence|by rewrite fs_get_set].
Qed.

(** A second run of [_ensure_data_directories], from where the first one
    ended, leaves the environment and the filesystem as they are and
    ends as the first one did. *)
Lemma ensure_again (root : path) (w w' : world) (r : outcome unit) :
  _ensure_data_directories root w = (w', r) →
  same_state (_ensure_data_directories root w').1 w'
  ∧ (_ensure_data_directories root w').2 = r.
Proof.
  rewrite ensure_unfold.
  destruct (Path_mkdir (processed_dir root) w) as [wm rm] eqn:Hmk.
  destruct (Path_mkdir_again _ _ _ _ Hmk) as (rm' & Hmk' & Hend).
  assert (∀ w2, fs w2 = fs wm →
            Path_mkdir (processed_dir root) w2 = (w2, rm')) as Hsecond.
  { intros w2 Hfs.
    rewrite (Path_mkdir_confined (processed_dir root) w2 wm) by done.
    rewrite Hmk'. cbn [fst snd]. by rewrite <- Hfs, fs_set_get. }
  destruct rm as [u|e].
  - destruct rm' as [u'|]; [|done]. intros Hload.
    pose proof (load_if_present_frame root wm) as Hfr.
    rewrite Hload in Hfr. cbn [fst] in Hfr.
    rewrite ensure_unfold, Hsecond by (by rewrite Hfr).
    rewrite (load_if_present_again _ _ _ _ Hload). by split.
  - destruct rm' as [|e']; [done|]. destruct Hend as [Hcls Heq].
    destruct (is_OSError e) eqn:He.
    + intros Hload.
      pose proof (load_if_present_frame root
                    (set_log (log wm ++ [mkdir_warning root e]) wm)) as Hfr.
      rewrite Hload in Hfr. cbn [fst] in Hfr.
      rewrite ensure_unfold, Hsecond by (by rewrite Hfr). rewrite Hcls.
      pose proof (load_if_present_again _ _ _ _ Hload) as Hagain.
      destruct (load_if_present_respects root
                  (set_log (log w' ++ [mkdir_warning root e']) w') w')
        as [Hs Hr]; [done|].
      by rewrite Hagain in Hs, Hr.
    + intros [= <- <-]. rewrite ensure_unfold, Hsecond by done.
      rewrite Hcls. rewrite (Heq eq_refl). by split.
Qed.

Lemma processed_dir_nul (root : path) :
  has_nul (processed_dir root) = has_nul root.
Proof. done. Qed.

Lemma dotenv_path_nul (root : path) :
  has_nul (dotenv_path root) = has_nul root.
Proof. done. Qed.

(** [configure_environment] with its project root at hand: the logging
    is configured, the directory is made, with a warning for an [OSError],
    and the dotfile step follows. *)
Lemma configure_steps (root : option path) (w : world) (pr : path) :
  project_root_is root w pr →
  configure_environment root w =
    match Path_mkdir (processed_dir pr) (_configure_logging w).1 with
    | (wm, Return _) => load_if_present pr wm
    | (wm, Raise e) =>
        if is_OSError e
        then load_if_present pr (set_log (log w ++ [mkdir_warning pr e]) wm)
        else (wm, Raise e)
    end.
Proof.
  intros Hpr. rewrite (configure_unfold _ _ _ Hpr), ensure_unfold.
  destruct (configure_logging_state w) as (_ & Hlog & _).
  destruct (Path_mkdir_rest (processed_dir pr) (_configure_logging w).1)
    as (_ & _ & _ & Hl).
  destruct (Path_mkdir (processed_dir pr) (_configure_logging w).1)
    as [wm [u|e]]; cbn [fst snd] in *; [done|]. by rewrite Hl, Hlog.
Qed.

(** What making the directory leaves as it was: the environment, the
    log, what was in the filesystem and, with the project root in place,
    the answer of [is_file] for the dotfile. *)
Lemma configure_mkdir_keeps (pr : path) (w : world) :
  let wm := (Path_mkdir (processed_dir pr) (_configure_logging w).1).1 in
  environ wm = environ w ∧ log wm = log w ∧ fs w ⊆ fs wm
  ∧ fs wm !! dotenv_path pr = fs w !! dotenv_path pr
  ∧ (is_dir_in (fs w) pr →
     is_file_answer (fs wm) (dotenv_path pr)
     = is_file_answer (fs w) (dotenv_path pr)).
Proof.
  intros wm. subst wm.
  destruct (configure_logging_state w) as ([Henv Hfs] & Hlog & _).
  destruct (Path_mkdir_rest (processed_dir pr) (_configure_logging w).1)
    as (He & _ & _ & Hl).
  pose proof (Path_mkdir_mono (processed_dir pr) (_configure_logging w).1)
    as Hm.
  pose proof (Path_mkdir_dotenv pr (_configure_logging w).1) as Hd.
  rewrite Hfs in Hm, Hd. split_and!; try first [done|congruence].
  intros Hdir. by apply is_file_answer_stable.
Qed.

(** A project root with a dotfile in it is there, and its names hold no
    NUL. *)
Lemma dotfile_project_root (root : option path) (w : world) (c : contents) :
  fs w !! dotenv_path (default (cwd w) root) = Some (File c) →
  project_root_is root w (default (cwd w) root)
  ∧ has_nul (default (cwd w) root) = false.
Proof.
  intros Hfs. split.
  - destruct root as [p|]; [done|]. split; [done|].
    by apply (fs_parent w ".env" (cwd w) (File c)).
  - pose proof (fs_no_nul _ _ _ Hfs) as Hnul.
    rewrite dotenv_path_nul in Hnul. done.
Qed.

End ensure.

(** ** More on strings *)

Section more_strings.

Lemma append_nil (t : string) : "" +:+ t = t.
Proof. reflexivity. Qed.

Lemma append_cons (c : ascii) (s t : string) :
  String c s +:+ t = String c (s +:+ t).
Proof. reflexivity. Qed.

Lemma blank_lstrip (ws s : string) :
  blank ws = true → lstrip (ws +:+ s) = lstrip s.
Proof.
  induction ws as [|c ws IH]; simpl; [done|].
  intros [Hc Hws]%andb_true_iff. rewrite Hc. by apply IH.
Qed.

Lemma blank_rstrip_empty (ws : string) : blank ws = true → rstrip ws = "".
Proof.
  induction ws as [|c ws IH]; simpl; [done|].
  intros [Hc Hws]%andb_true_iff. by rewrite (IH Hws), Hc.
Qed.

Lemma rstrip_app (s t : string) :
  rstrip (s +:+ t) = if truthy (rstrip t) then s +:+ rstrip t else rstrip s.
Proof.
  induction s as [|c s IH]; rewrite ?append_nil, ?append_cons.
  - by destruct (rstrip t).
  - cbn [rstrip]. rewrite IH. destruct (truthy (rstrip t)) eqn:Ht; [|done].
    assert (truthy (s +:+ rstrip t) = true) as ->.
    { destruct s; [exact Ht|done]. }
    by rewrite andb_false_r.
Qed.

Lemma blank_rstrip (s ws : string) :
  blank ws = true → rstrip (s +:+ ws) = rstrip s.
Proof. intros Hws. by rewrite rstrip_app, (blank_rstrip_empty ws Hws). Qed.

Lemma lstrip_rstrip (s : string) : lstrip (rstrip s) = rstrip (lstrip s).
Proof.
  induction s as [|c s IH]; simpl; [done|].
  destruct (isspace c) eqn:Hc; simpl.
  - rewrite <- IH. destruct (rstrip s) eqn:Hr; simpl; [done|]. by rewrite Hc.
  - by rewrite Hc.
Qed.

Lemma strip_rstrip (s : string) : strip (rstrip s) = strip s.
Proof. unfold strip. by rewrite lstrip_rstrip, rstrip_idem. Qed.

Lemma blank_contains (c : ascii) (ws : string) :
  isspace c = false → blank ws = true → contains c ws = false.
Proof.
  intros Hc. induction ws as [|d ws IH]; simpl; [done|].
  intros [Hd Hws]%andb_true_iff. rewrite (IH Hws), orb_false_r.
  apply bool_decide_eq_false. by intros ->; congruence.
Qed.

Lemma partition_app (sep : ascii) (a b : string) :
  contains sep a = false →
  partition sep (a +:+ String sep b) = (a, String sep "", b).
Proof.
  induction a as [|c a IH]; simpl.
  - intros _. by rewrite bool_decide_eq_true_2.
  - intros [Hc Ha]%orb_false_iff. rewrite Hc. by rewrite (IH Ha).
Qed.

(** A stripped string that is not empty starts and ends with a visible
    character. *)
Lemma stripped_head (k : string) :
  strip k = k → k ≠ "" →
  ∃ c t, k = String c t ∧ isspace c = false ∧ rstrip k = k.
Proof.
  intros Hk Hne. destruct k as [|c t]; [done|].
  pose proof (strip_head _ _ _ Hk) as Hc. exists c, t. split_and!; [done..|].
  unfold strip in Hk. by rewrite lstrip_nonspace in Hk.
Qed.

Lemma app_assoc_s (a b c : string) : (a +:+ b) +:+ c = a +:+ (b +:+ c).
Proof.
  induction a as [|x a IH]; [done|]. rewrite !append_cons. by rewrite IH.
Qed.

Lemma contains_rev_app (c : ascii) (s t : string) :
  contains c (String.rev_app s t) = contains c s || contains c t.
Proof.
  revert t. induction s as [|d s IH]; intros t; simpl; [done|].
  rewrite IH. simpl. destruct (bool_decide (d = c)), (contains c s); done.
Qed.

(** The lines of a text hold the characters of the text, and the line
    feeds that end them. *)
Lemma lines_go_contains (c : ascii) (s cur l : string) (cr : bool) :
  c ≠ LF → contains c cur = false → contains c s = false →
  l ∈ lines_go cur cr s → contains c l = false.
Proof.
  intros Hc. revert cur cr. induction s as [|d s IH]; intros cur cr Hcur; simpl.
  - intros _. destruct (truthy cur); [|by intros ?%elem_of_nil].
    intros ->%list_elem_of_singleton. unfold String.rev.
    by rewrite contains_rev_app, Hcur.
  - intros [Hd Hs]%orb_false_iff.
    assert (contains c (String.rev (String LF cur)) = false) as Hline.
    { unfold String.rev. rewrite contains_rev_app. simpl.
      rewrite Hcur, bool_decide_eq_false_2; [done|]. congruence. }
    repeat case_match; rewrite ?elem_of_cons;
      try (intros [->|Hin]; [done|]); try intros Hin;
      eapply IH; try exact Hin; try done.
    simpl. by rewrite Hd, Hcur.
Qed.

Lemma lines_contains (c : ascii) (s l : string) :
  c ≠ LF → contains c s = false → l ∈ lines s → contains c l = false.
Proof. intros Hc Hs. by apply lines_go_contains. Qed.

End more_strings.

(** ** The properties of the specification *)

Section environment_claims.

Lemma configure_mono (root : option path) (w : world) :
  environ w ⊆ environ (configure_environment root w).1.
Proof.
  destruct (project_root_cases root w) as [Hpr|[-> Hnd]].
  - rewrite (configure_unfold _ _ _ Hpr).
    destruct (configure_logging_state w) as ([Henv _] & _).
    rewrite <- Henv at 1. apply ensure_mono.
  - by destruct (configure_no_cwd w Hnd) as [e ->].
Qed.

(** C1. A variable that is set before [_load_dotenv] runs has the same
    value after it, and after [configure_environment]; the loader changes
    the value of no key, it only adds keys that were not set. *)
Theorem C1_existing_value_kept (w : world) (k v : string) :
  environ w !! k = Some v →
  (∀ p, environ (_load_dotenv p w).1 !! k = Some v)
  ∧ (∀ root, environ (configure_environment root w).1 !! k = Some v)
  ∧ (∀ p k', environ (_load_dotenv p w).1 !! k' = environ w !! k'
             ∨ environ w !! k' = None).
Proof.
  intros Hk. split_and!.
  - intros p. by apply (lookup_weaken _ _ _ _ Hk), load_dotenv_mono.
  - intros root. by apply (lookup_weaken _ _ _ _ Hk), configure_mono.
  - intros p k'. destruct (environ w !! k') as [v'|] eqn:Hk'; [left|by right].
    by apply (lookup_weaken _ _ _ _ Hk'), load_dotenv_mono.
Qed.

(** C10. Neither [_load_dotenv] nor [configure_environment] removes a
    variable: the keys set afterwards include all the keys set before,
    whatever the filesystem holds and whatever the environment was. *)
Theorem C10_no_variable_removed (w : world) :
  (∀ p, dom (environ w) ⊆ dom (environ (_load_dotenv p w).1))
  ∧ (∀ root, dom (environ w) ⊆ dom (environ (configure_environment root w).1)).
Proof.
  split; intros x.
  - apply subseteq_dom, load_dotenv_mono.
  - apply subseteq_dom, configure_mono.
Qed.

End environment_claims.

Lemma C1_existing_value_kept_witness :
  environ world_foo_set !! "FOO" = Some "existing"
  ∧ environ (_load_dotenv [".env"; "proj"] world_foo_set).1 !! "FOO"
    = Some "existing".
Proof.
  split; [reflexivity|].
  apply (C1_existing_value_kept world_foo_set "FOO" "existing"). reflexivity.
Defined.

Section lines_of_a_dotfile.

Lemma setdefault_fresh (key value : string) (w : world) :
  environ w !! key = None →
  truthy key = true → contains "=" key = false →
  contains NUL key = false → contains NUL value = false →
  environ_setdefault key value w
  = (set_environ (<[key := value]> (environ w)) w, Return tt).
Proof.
  intros Hk Hne Heq Hnk Hnv. unfold environ_setdefault, environ_setitem.
  by rewrite Hk, Hnk, Hnv, Hne, Heq.
Qed.

Lemma setdefault_present (key value old : string) (w : world) :
  environ w !! key = Some old →
  environ_setdefault key value w = (w, Return tt).
Proof. intros Hk. unfold environ_setdefault. by rewrite Hk. Qed.

(** A line that assigns: the key is set when it was not, provided
    neither side holds a NUL. *)
Lemma load_line_sets (raw key value : string) (w : world) :
  Spec.assignment raw = Some (key, value) →
  environ w !! key = None →
  contains NUL key = false → contains NUL value = false →
  _load_dotenv_line raw w
  = (set_environ (<[key := value]> (environ w)) w, Return tt).
Proof.
  intros Ha Hk Hnk Hnv. rewrite load_line_assignment, Ha.
  destruct (assignment_key _ _ _ Ha). by apply setdefault_fresh.
Qed.

Lemma load_line_keeps (raw key value old : string) (w : world) :
  Spec.assignment raw = Some (key, value) →
  environ w !! key = Some old →
  _load_dotenv_line raw w = (w, Return tt).
Proof.
  intros Ha Hk. rewrite load_line_assignment, Ha.
  by eapply setdefault_present.
Qed.

Lemma load_line_skips (raw : string) (w : world) :
  Spec.assignment raw = None → _load_dotenv_line raw w = (w, Return tt).
Proof. intros Ha. by rewrite load_line_assignment, Ha. Qed.

End lines_of_a_dotfile.

(** C2. Loading the example dotfile into an environment that has none of
    [FOO], [BAZ], [EMPTY], [NOKEY] returns normally and adds exactly
    [FOO=bar], [BAZ=qux], [EMPTY=] and [NOKEY=]; in particular it sets no
    variable with the empty name. *)
Theorem C2_example_dotfile (w : world) (p : path) (final_newline : bool) :
  fs w !! p = Some (File (Text (example_dotfile final_newline) false)) →
  environ w !! "FOO" = None → environ w !! "BAZ" = None →
  environ w !! "EMPTY" = None → environ w !! "NOKEY" = None →
  let w' := (_load_dotenv p w).1 in
  (_load_dotenv p w).2 = Return tt
  ∧ environ w' !! "FOO" = Some "bar"
  ∧ environ w' !! "BAZ" = Some "qux"
  ∧ environ w' !! "EMPTY" = Some ""
  ∧ environ w' !! "NOKEY" = Some ""
  ∧ environ w' !! "" = environ w !! ""
  ∧ environ w' = <["NOKEY" := ""]> (<["EMPTY" := ""]> (<["BAZ" := "qux"]>
                   (<["FOO" := "bar"]> (environ w)))).
Proof.
  intros Hfs Hfoo Hbaz Hempty Hnokey.
  assert (_load_dotenv p w
          = (set_environ (<["NOKEY" := ""]> (<["EMPTY" := ""]>
               (<["BAZ" := "qux"]> (<["FOO" := "bar"]> (environ w))))) w,
             Return tt)) as Hrun.
  { rewrite load_dotenv_unfold, Hfs. unfold for_line_in. cbn [fst snd].
    assert (∃ last, lines (example_dotfile final_newline)
                    = ["FOO=bar" +:+ nl; "# comment" +:+ nl; "BAZ = qux" +:+ nl;
                       "EMPTY=" +:+ nl; "=novalue" +:+ nl; last]
                    ∧ Spec.assignment last = Some ("NOKEY", ""))
      as (last & -> & Hlast).
    { destruct final_newline; eexists; split; vm_compute; reflexivity. }
    cbn [for_each]. unfold bind.
    rewrite (load_line_sets _ "FOO" "bar") by done.
    rewrite (load_line_skips ("# comment" +:+ nl)) by done.
    rewrite (load_line_sets _ "BAZ" "qux") by (by simplify_map_eq).
    rewrite (load_line_sets _ "EMPTY" "") by (by simplify_map_eq).
    rewrite (load_line_skips ("=novalue" +:+ nl)) by done.
    rewrite (load_line_sets _ "NOKEY" "") by (by simplify_map_eq).
    done. }
  rewrite Hrun. simpl. split_and!; try done; by simplify_map_eq.
Qed.

Lemma C2_example_dotfile_witness :
  let w' := (_load_dotenv [".env"; "proj"] world_example).1 in
  environ w' !! "FOO" = Some "bar" ∧ environ w' !! "BAZ" = Some "qux"
  ∧ environ w' !! "EMPTY" = Some "" ∧ environ w' !! "NOKEY" = Some ""
  ∧ environ w' !! "" = None.
Proof.
  destruct (C2_example_dotfile world_example [".env"; "proj"] true)
    as (_ & Hfoo & Hbaz & Hempty & Hnokey & Hnone & _);
    [reflexivity..|].
  repeat split; assumption.
Defined.

Section stripping.

Lemma lstrip_stripped (s : string) :
  ∃ a, blank a = true ∧ s = a +:+ lstrip s ∧ space_at 0 (lstrip s) = false.
Proof.
  induction s as [|c s (a & Ha & Hs & Hfirst)].
  - by exists "".
  - cbn [lstrip]. destruct (isspace c) eqn:Hc.
    + exists (String c a). rewrite append_cons, <- Hs.
      split_and!; [|done..]. simpl. by rewrite Hc.
    + exists "". split_and!; [done..|]. unfold space_at. simpl. done.
Qed.

Lemma rstrip_stripped (s : string) :
  ∃ b, blank b = true ∧ s = rstrip s +:+ b
       ∧ space_at (String.length (rstrip s) - 1) (rstrip s) = false.
Proof.
  induction s as [|c s (b & Hb & Hs & Hlast)].
  - by exists "".
  - cbn [rstrip]. destruct (rstrip s) as [|d r] eqn:Hr.
    + destruct (isspace c) eqn:Hc; cbn [truthy negb andb].
      * exists (String c b). rewrite append_nil in Hs |- *. subst b.
        split_and!; [|done..]. simpl. by rewrite Hc.
      * exists b. rewrite append_cons, <- Hs. split_and!; [done..|].
        unfold space_at. simpl. done.
    + rewrite andb_false_r. exists b. rewrite append_cons, <- Hs.
      split_and!; [done..|].
      unfold space_at in Hlast |- *. cbn [String.length] in Hlast |- *.
      rewrite Nat.sub_succ, Nat.sub_0_r in Hlast |- *. exact Hlast.
Qed.

Lemma rstrip_first (s : string) :
  space_at 0 s = false → space_at 0 (rstrip s) = false.
Proof.
  destruct s as [|c s]; [done|]. cbn [rstrip].
  by destruct (isspace c && negb (truthy (rstrip s))).
Qed.

(** [strip] takes the whitespace off both ends, and nothing else. *)
Lemma strip_spec (s : string) : stripped_of s (strip s).
Proof.
  destruct (lstrip_stripped s) as (a & Ha & Hs & Hfirst).
  destruct (rstrip_stripped (lstrip s)) as (b & Hb & Hl & Hlast).
  split.
  - unfold trimmed, strip. by rewrite (rstrip_first _ Hfirst), Hlast.
  - exists a, b. split_and!; [done..|]. unfold strip. by rewrite <- Hl.
Qed.

Lemma strip_padding (a s b : string) :
  blank a = true → blank b = true → strip (a +:+ s +:+ b) = strip s.
Proof.
  intros Ha Hb. unfold strip at 1. rewrite <- lstrip_rstrip.
  rewrite <- app_assoc_s, (blank_rstrip _ _ Hb), lstrip_rstrip.
  by rewrite (blank_lstrip _ _ Ha).
Qed.

Lemma rstrip_last (t : string) :
  space_at (String.length t - 1) t = false → rstrip t = t.
Proof.
  induction t as [|c t IH]; [done|]. intros Hlast. cbn [rstrip].
  destruct t as [|d t'].
  - unfold space_at in Hlast. simpl in Hlast. by rewrite Hlast.
  - rewrite IH; [by rewrite andb_false_r|].
    unfold space_at in Hlast |- *. cbn [String.length] in Hlast |- *.
    rewrite Nat.sub_succ, Nat.sub_0_r in Hlast |- *. exact Hlast.
Qed.

Lemma trimmed_strip (t : string) : trimmed t = true → strip t = t.
Proof.
  unfold trimmed. intros [Hfirst Hlast]%andb_true_iff.
  apply negb_true_iff in Hfirst, Hlast. unfold strip.
  assert (lstrip t = t) as ->; [|by apply rstrip_last].
  destruct t as [|c t]; [done|]. unfold space_at in Hfirst.
  simpl in Hfirst. simpl. by rewrite Hfirst.
Qed.

(** ... and it is the only string that is what is left of [s] in this
    way. *)
Lemma stripped_of_strip (s t : string) : stripped_of s t → t = strip s.
Proof.
  intros [Ht (a & b & Ha & Hb & ->)].
  by rewrite (strip_padding _ _ _ Ha Hb), (trimmed_strip _ Ht).
Qed.

End stripping.

Section line_claims.

Lemma split_found (line : string) :
  contains "=" line = true →
  line = (Spec.split_first_eq line).1 +:+ String "=" (Spec.split_first_eq line).2
  ∧ contains "=" (Spec.split_first_eq line).1 = false.
Proof.
  intros Hc. destruct (partition_found _ _ Hc) as (k & v & Hp & Hline & Hk).
  by rewrite (partition_split_first_eq _ _ _ _ Hp).
Qed.

Lemma split_missing (line : string) :
  contains "=" line = false → Spec.split_first_eq line = (line, "").
Proof.
  intros Hc. apply (partition_split_first_eq _ _ ""), partition_missing, Hc.
Qed.

(** The loop body on a line that is neither blank nor a comment. *)
Lemma load_line_split (raw : string) (w : world) :
  strip raw ≠ "" → startswith (strip raw) "#" = false →
  _load_dotenv_line raw w
  = (if truthy (strip (Spec.split_first_eq (strip raw)).1)
     then environ_setdefault (strip (Spec.split_first_eq (strip raw)).1)
                             (strip (Spec.split_first_eq (strip raw)).2)
     else ret tt) w.
Proof.
  intros Hne Hcomment. unfold _load_dotenv_line. rewrite Hcomment.
  destruct (strip raw) as [|c t] eqn:Hline; [done|]. cbn [truthy negb orb].
  destruct (partition "=" (String c t)) as [[k m] v] eqn:Hp.
  rewrite (partition_split_first_eq _ _ _ _ Hp). cbn [fst snd].
  rewrite <- Hline in Hp. by rewrite (stripped_key_empty _ _ _ _ _ Hp).
Qed.

(** C3. In a dotfile that is read, a line that is neither blank nor a
    comment once stripped is split at its first [=]: the key is what
    stands before it and holds no [=], the value is what stands after it;
    without [=] the whole line is the key and the value is empty.  Line,
    key and value are stripped of the whitespace at their two ends, and
    [_load_dotenv] hands the stripped key and value to [setdefault]
    before it goes on with the lines that follow.  So the key, unless it
    was set already, has the value of the line when [_load_dotenv] ends;
    in particular a line without [=] sets the variable named by the line
    to the empty string rather than being skipped. *)
Theorem C3_split_at_first_equals
    (p : path) (s : string) (bad : bool) (pre post : list string)
    (raw : string) (w : world) :
  fs w !! p = Some (File (Text s bad)) →
  lines s = (pre ++ raw :: post)%list →
  (for_each pre _load_dotenv_line w).2 = Return tt →
  let w1 := (for_each pre _load_dotenv_line w).1 in
  let line := strip raw in
  line ≠ "" → startswith line "#" = false →
  let key := (Spec.split_first_eq line).1 in
  let value := (Spec.split_first_eq line).2 in
  stripped_of raw line
  ∧ stripped_of key (strip key)
  ∧ stripped_of value (strip value)
  ∧ (contains "=" line = true →
     line = key +:+ String "=" value ∧ contains "=" key = false)
  ∧ (contains "=" line = false →
     key = line ∧ value = "" ∧ strip key = line ∧ strip value = "")
  ∧ _load_dotenv p w
    = ((if truthy (strip key)
        then environ_setdefault (strip key) (strip value)
        else ret tt) ;;
       for_each post _load_dotenv_line ;;
       if bad then raise UnicodeDecodeError else ret tt) w1
  ∧ (strip key ≠ "" →
     contains NUL (strip key) = false → contains NUL (strip value) = false →
     environ (_load_dotenv p w).1 !! strip key
     = Some (default (strip value) (environ w1 !! strip key))).
Proof.
  intros Hfs Hlines Hpre w1 line Hne Hcomment key value.
  assert (contains "=" key = false) as Hkey.
  { destruct (contains "=" line) eqn:Hc.
    - by apply split_found.
    - subst key. by rewrite (split_missing line Hc). }
  assert (_load_dotenv p w
          = ((if truthy (strip key)
              then environ_setdefault (strip key) (strip value)
              else ret tt) ;;
             for_each post _load_dotenv_line ;;
             if bad then raise UnicodeDecodeError else ret tt) w1) as Hrun.
  { rewrite load_dotenv_unfold, Hfs. unfold for_line_in. cbn [fst snd].
    rewrite Hlines. unfold bind at 1. rewrite for_each_app. unfold bind at 1.
    subst w1.
    destruct (for_each pre _load_dotenv_line w) as [w1 [[]|e]]; [|done].
    cbn [for_each fst]. unfold bind. rewrite load_line_split by done.
    fold line. fold key. fold value.
    by destruct ((if truthy (strip key)
                  then environ_setdefault (strip key) (strip value)
                  else ret tt) w1) as [w2 [[]|e]]. }
  split_and!.
  - apply strip_spec.
  - apply strip_spec.
  - apply strip_spec.
  - apply split_found.
  - intros Hc. subst key value. rewrite (split_missing line Hc). cbn [fst snd].
    split_and!; [done|done|apply strip_idem|done].
  - done.
  - intros Hstripped Hnk Hnv. rewrite Hrun. unfold bind.
    assert (truthy (strip key) = true) as -> by by destruct (strip key).
    assert (∃ w2, environ_setdefault (strip key) (strip value) w1
                  = (w2, Return tt)
                  ∧ environ w2 !! strip key
                    = Some (default (strip value) (environ w1 !! strip key)))
      as (w2 & -> & Hset).
    { destruct (environ w1 !! strip key) as [v0|] eqn:Hk.
      - exists w1. by rewrite (setdefault_present _ _ v0).
      - eexists. rewrite setdefault_fresh; try done.
        + split; [done|]. simpl. apply lookup_insert_eq.
        + by destruct (strip key).
        + by apply contains_strip. }
    pose proof (load_lines_mono post w2) as Hm.
    destruct (for_each post _load_dotenv_line w2) as [w3 [[]|e]]; cbn [fst] in *.
    + assert (environ ((if bad then raise UnicodeDecodeError else ret tt) w3).1
              = environ w3) as -> by by destruct bad.
      by apply (lookup_weaken _ _ _ _ Hset).
    + by apply (lookup_weaken _ _ _ _ Hset).
Qed.

(** C4. A line that is blank or a comment once stripped, or whose key is
    empty once stripped, changes nothing and raises nothing: the loop
    goes on as if the line were not there. *)
Theorem C4_skipped_lines (raw : string) :
  strip raw = "" ∨ startswith (strip raw) "#" = true
  ∨ strip (Spec.split_first_eq (strip raw)).1 = "" →
  (∀ w, _load_dotenv_line raw w = (w, Return tt))
  ∧ (∀ pre post w,
       for_each (pre ++ raw :: post) _load_dotenv_line w
       = for_each (pre ++ post) _load_dotenv_line w).
Proof.
  intros Hskip.
  assert (∀ w, _load_dotenv_line raw w = (w, Return tt)) as Hline.
  { intros w. destruct (decide (strip raw = "")) as [Hblank|Hne].
    { unfold _load_dotenv_line. by rewrite Hblank. }
    destruct (startswith (strip raw) "#") eqn:Hcomment.
    { unfold _load_dotenv_line. rewrite Hcomment. by rewrite orb_true_r. }
    destruct Hskip as [?|[?|Hkey]]; [done..|].
    rewrite load_line_split by done. by rewrite Hkey. }
  split; [done|]. intros pre post w. rewrite !for_each_app. unfold bind.
  destruct (for_each pre _load_dotenv_line w) as [w1 [[]|e]]; [|done].
  cbn [for_each]. unfold bind. by rewrite Hline.
Qed.

Lemma setdefault_other (key value k : string) (w : world) :
  key ≠ k →
  environ (environ_setdefault key value w).1 !! k = environ w !! k.
Proof.
  intros Hne. destruct (setdefault_cases key value w)
    as [[_ ->]|[[_ ->]|[_ [e ->]]]]; simpl; try done.
  by rewrite lookup_insert_ne.
Qed.

(** Lines that do not assign [k] leave [k] as it is. *)
Lemma load_lines_other (ls : list string) (k : string) (w : world) :
  (∀ (l v : string), l ∈ ls → Spec.assignment l ≠ Some (k, v)) →
  environ (for_each ls _load_dotenv_line w).1 !! k = environ w !! k.
Proof.
  revert w. induction ls as [|l ls IH]; intros w Hls; [done|].
  cbn [for_each]. unfold bind.
  assert (environ (_load_dotenv_line l w).1 !! k = environ w !! k) as Hl.
  { rewrite load_line_assignment.
    destruct (Spec.assignment l) as [[k' v']|] eqn:Ha; [|done].
    apply setdefault_other. intros ->. eapply Hls; [left|done]. }
  destruct (_load_dotenv_line l w) as [w1 [[]|e]]; simpl in *; [|done].
  rewrite IH; [done|]. intros l' v' Hin. apply Hls. by right.
Qed.

(** C9. When several lines of a dotfile assign the same key and the key
    is not set beforehand, the first of them decides: after a load that
    returned, the key has the value of the earliest line that assigns
    it, whatever the later lines say. *)
Theorem C9_first_assignment_wins
    (p : path) (s : string) (pre post : list string)
    (raw key value : string) (w : world) :
  fs w !! p = Some (File (Text s false)) →
  lines s = (pre ++ raw :: post)%list →
  (∀ (l v : string), l ∈ pre → Spec.assignment l ≠ Some (key, v)) →
  Spec.assignment raw = Some (key, value) →
  environ w !! key = None →
  (_load_dotenv p w).2 = Return tt →
  environ (_load_dotenv p w).1 !! key = Some value.
Proof.
  intros Hfs Hlines Hpre Hraw Hkey.
  rewrite load_dotenv_unfold, Hfs. unfold for_line_in. cbn [fst snd].
  rewrite Hlines. unfold bind at 1 2. rewrite for_each_app. unfold bind at 1 2.
  pose proof (load_lines_other pre key w Hpre) as Hother.
  destruct (for_each pre _load_dotenv_line w) as [w1 [[]|e]]; [|done].
  simpl in Hother. cbn [for_each]. unfold bind at 1 2.
  rewrite load_line_assignment, Hraw.
  destruct (setdefault_cases key value w1)
    as [[[x Hx] _]|[[_ ->]|[_ [e ->]]]]; [congruence| |done].
  pose proof (load_lines_mono post
                (set_environ (<[key:=value]> (environ w1)) w1)) as Hm.
  destruct (for_each post _load_dotenv_line _) as [w2 [[]|e]]; [|done].
  intros _. simpl in *.
  apply (lookup_weaken _ _ _ _ (lookup_insert_eq _ _ _) Hm).
Qed.

End line_claims.

Lemma C3_split_at_first_equals_witness :
  environ (_load_dotenv [".env"; "proj"] world_example).1 !! "BAZ"
  = Some "qux"
  ∧ environ (_load_dotenv [".env"; "proj"] world_example).1 !! "NOKEY"
    = Some "".
Proof.
  split.
  - pose proof (C3_split_at_first_equals [".env"; "proj"]
                  (example_dotfile true) false
                  ["FOO=bar" +:+ nl; "# comment" +:+ nl]
                  ["EMPTY=" +:+ nl; "=novalue" +:+ nl; "NOKEY" +:+ nl]
                  ("BAZ = qux" +:+ nl) world_example
                  eq_refl eq_refl eq_refl) as Hline.
    cbv zeta in Hline.
    destruct Hline as (_ & _ & _ & _ & _ & _ & Hset);
      [discriminate|reflexivity|].
    exact (Hset ltac:(discriminate) eq_refl eq_refl).
  - pose proof (C3_split_at_first_equals [".env"; "proj"]
                  (example_dotfile true) false
                  ["FOO=bar" +:+ nl; "# comment" +:+ nl; "BAZ = qux" +:+ nl;
                   "EMPTY=" +:+ nl; "=novalue" +:+ nl]
                  [] ("NOKEY" +:+ nl) world_example
                  eq_refl eq_refl eq_refl) as Hline.
    cbv zeta in Hline.
    destruct Hline as (_ & _ & _ & _ & _ & _ & Hset);
      [discriminate|reflexivity|].
    exact (Hset ltac:(discriminate) eq_refl eq_refl).
Defined.

Lemma C4_skipped_lines_witness :
  strip (Spec.split_first_eq (strip "=novalue")).1 = ""
  ∧ _load_dotenv_line "=novalue" world_example = (world_example, Return tt).
Proof.
  split; [reflexivity|].
  apply (C4_skipped_lines "=novalue"). right; right. reflexivity.
Defined.

Lemma C9_first_assignment_wins_witness :
  environ (_load_dotenv [".env"; "proj"] world_duplicates).1 !! "K"
  = Some "first".
Proof.
  apply (C9_first_assignment_wins [".env"; "proj"]
           ("A=1" +:+ nl +:+ "K=first" +:+ nl +:+ "K=second" +:+ nl)
           ["A=1" +:+ nl] ["K=second" +:+ nl] ("K=first" +:+ nl)
           "K" "first" world_duplicates).
  - reflexivity.
  - reflexivity.
  - intros l v Hin. apply list_elem_of_singleton in Hin. subst l. discriminate.
  - reflexivity.
  - reflexivity.
  - reflexivity.
Defined.

Local Open Scope list_scope.

Section bootstrap_claims.



(** The loop raises nothing but the [ValueError]s of [putenv]. *)
Lemma load_lines_raise (ls : list string) (w : world) (e : exn) :
  (for_each ls _load_dotenv_line w).2 = Raise e → ∃ msg, e = ValueError msg.
Proof.
  revert w. induction ls as [|l ls IH]; intros w; [done|].
  cbn [for_each]. unfold bind.
  destruct (_load_dotenv_line l w) as [w1 [[]|e1]] eqn:Hl; [apply IH|].
  simpl. intros [= ->]. revert Hl. rewrite load_line_assignment.
  destruct (Spec.assignment l) as [[k v]|]; [|done].
  unfold environ_setdefault, environ_setitem.
  repeat case_match; intros [= _ <-]; eauto.
Qed.

Lemma load_dotenv_unreadable (p : path) (c : contents) (w : world) :
  fs w !! p = Some (File c) → unreadable c →
  ∃ e, (_load_dotenv p w).2 = Raise e ∧ read_error p c e.
Proof.
  intros Hfs Hc. rewrite load_dotenv_unfold, Hfs.
  destruct c as [en|s bad]; simpl in *; [by eauto|]. subst bad.
  unfold for_line_in, bind. cbn [fst snd].
  destruct (for_each (lines s) _load_dotenv_line w) as [w1 [[]|e]] eqn:Hrun.
  - exists UnicodeDecodeError. split; [done|by left].
  - exists e. split; [done|]. right.
    apply (load_lines_raise (lines s) w). by rewrite Hrun.
Qed.

Lemma load_dotenv_decode_error (p : path) (s : string) (w w0 : world) :
  fs w !! p = Some (File (Text s true)) → environ w0 = environ w →
  (for_each (lines s) _load_dotenv_line w0).2 = Return tt →
  (_load_dotenv p w).2 = Raise UnicodeDecodeError.
Proof.
  intros Hfs Henv Hok. rewrite load_dotenv_unfold, Hfs.
  unfold for_line_in, bind. cbn [fst snd].
  rewrite (load_lines_confined (lines s) w w0 Henv).
  by destruct (for_each (lines s) _load_dotenv_line w0) as [w1 [[]|e]].
Qed.

(** With a dotfile in the project root, [configure_environment] comes
    down to loading it, from a world with the environment and the dotfile
    of the start. *)
Lemma configure_dotenv_step (root : option path) (w : world) (c : contents) :
  fs w !! dotenv_path (default (cwd w) root) = Some (File c) →
  ∃ wb, configure_environment root w
        = _load_dotenv (dotenv_path (default (cwd w) root)) wb
        ∧ environ wb = environ w
        ∧ fs wb !! dotenv_path (default (cwd w) root) = Some (File c).
Proof.
  intros Hfs. destruct (dotfile_project_root _ _ _ Hfs) as [Hpr Hnul].
  set (pr := default (cwd w) root) in *.
  destruct (configure_mkdir_keeps pr w) as (Henv & _ & _ & Hd & _).
  pose proof (Path_mkdir_spec (processed_dir pr) (_configure_logging w).1)
    as (_ & _ & Hend).
  rewrite (configure_steps _ _ _ Hpr).
  destruct (Path_mkdir (processed_dir pr) (_configure_logging w).1)
    as [wm [u|e]]; cbn [fst snd] in *.
  - exists wm. rewrite load_if_present_unfold.
    rewrite (is_file_answer_file wm _ c) by congruence.
    split_and!; [done|done|congruence].
  - destruct Hend as (_ & _ & Hend).
    rewrite processed_dir_nul, Hnul in Hend. rewrite Hend.
    exists (set_log (log w ++ [mkdir_warning pr e]) wm).
    rewrite load_if_present_unfold.
    rewrite (is_file_answer_file _ _ c) by (simpl; congruence).
    split_and!; [done|done|simpl; congruence].
Qed.

(** C7. When [project_root/.env] is a regular file that cannot be opened
    or decoded, the error is caught nowhere: [_load_dotenv] ends by
    raising it, and so does [configure_environment].  The error is the
    one of [open], or the decoding error when the lines read before it
    went through. *)
Theorem C7_unreadable_dotfile_raises
    (root : option path) (w : world) (c : contents) :
  let project_root := default (cwd w) root in
  fs w !! dotenv_path project_root = Some (File c) → unreadable c →
  (∃ e, (_load_dotenv (dotenv_path project_root) w).2 = Raise e
        ∧ read_error (dotenv_path project_root) c e)
  ∧ (∃ e, (configure_environment root w).2 = Raise e
          ∧ read_error (dotenv_path project_root) c e)
  ∧ (∀ s, c = Text s true →
          (for_each (lines s) _load_dotenv_line w).2 = Return tt →
          (configure_environment root w).2 = Raise UnicodeDecodeError).
Proof.
  intros project_root Hfs Hc.
  destruct (configure_dotenv_step root w c Hfs) as (wb & Hrun & Henv & Hd).
  fold project_root in Hrun, Hd. rewrite Hrun.
  split_and!.
  - by apply load_dotenv_unreadable.
  - by apply load_dotenv_unreadable.
  - intros s -> Hok. by apply (load_dotenv_decode_error _ s wb w).
Qed.

(** C8. A second call of [configure_environment] on the same project
    root, right after the first, leaves the filesystem and the
    environment exactly as the first call left them and ends as the
    first call ended: it raises nothing when the first call returned. *)
Theorem C8_second_call_changes_nothing (root : option path) (w : world) :
  let first := configure_environment root w in
  let second := configure_environment root first.1 in
  fs second.1 = fs first.1
  ∧ environ second.1 = environ first.1
  ∧ second.2 = first.2
  ∧ (first.2 = Return tt → second.2 = Return tt).
Proof.
  intros first second.
  assert (same_state second.1 first.1 ∧ second.2 = first.2) as [[Henv Hfs] Hr].
  { subst first second.
    destruct (project_root_cases root w) as [Hpr|[-> Hnd]].
    2: { destruct (configure_no_cwd w Hnd) as [e He].
         rewrite He. cbn [fst snd]. by rewrite He. }
    rewrite (configure_unfold _ _ _ Hpr).
    destruct (configure_logging_state w) as ([_ Hfs0] & _ & Hcwd & _).
    set (project_root := default (cwd w) root) in *.
    set (w0 := (_configure_logging w).1) in *.
    destruct (ensure_frame project_root w0) as [Hc _].
    destruct (ensure_fs project_root w0) as [Hsub _].
    destruct (_ensure_data_directories project_root w0) as [w1 r1] eqn:Hrun.
    cbn [fst snd] in *.
    assert (cwd w1 = cwd w) as Hcw by congruence.
    assert (project_root_is root w1 project_root) as Hpr1.
    { destruct root as [p|]; [done|]. destruct Hpr as [Heq [d Hd]].
      unfold project_root_is. rewrite Hcw. split; [done|]. exists d.
      rewrite <- Hfs0 in Hd. by apply (lookup_weaken _ _ _ _ Hd). }
    rewrite (configure_unfold _ _ _ Hpr1).
    destruct (configure_logging_state w1) as (Hs & _).
    destruct (ensure_respects project_root _ _ Hs) as [[Henv Hfs] Hr].
    destruct (ensure_again project_root _ _ _ Hrun) as [[Henv' Hfs'] Hr'].
    split; [split|]; congruence. }
  split_and!; try done. intros Hret. by rewrite Hr.
Qed.

End bootstrap_claims.



Lemma C7_unreadable_dotfile_raises_witness :
  ∃ e, (configure_environment None world_unreadable).2 = Raise e
       ∧ e = OSError EACCES [".env"; "proj"].
Proof.
  destruct (C7_unreadable_dotfile_raises None world_unreadable
              (Unopenable EACCES) eq_refl I) as (_ & (e & Hraise & Herr) & _).
  exists e. split; [exact Hraise|exact Herr].
Defined.

(** The bootstrap on the example project: the directories are made, the
    four variables are set, nothing is logged. *)
Example configure_example :
  let w' := (configure_environment None world_example).1 in
  (configure_environment None world_example).2 = Return tt
  ∧ map_to_list (environ w')
    = [("EMPTY", ""); ("NOKEY", ""); ("FOO", "bar"); ("BAZ", "qux")]
  ∧ fs w' !! ["processed"; "data"; "proj"] = Some (Dir None)
  ∧ fs w' !! ["data"; "proj"] = Some (Dir None)
  ∧ log w' = [].
Proof. vm_compute. repeat split. Qed.

(** Without a working directory to fall back on, the call stops at
    [Path.cwd()], before anything is configured. *)
Example configure_without_cwd :
  configure_environment None world_bare
  = (world_bare, Raise (OSError ENOENT ["proj"; "home"])).
Proof. reflexivity. Qed.

(** [mkdir] can stop half way: here it makes [data] and is refused
    [data/processed]; the bootstrap logs the warning and returns. *)
Example configure_umask :
  let w' := (configure_environment None world_umask).1 in
  (configure_environment None world_umask).2 = Return tt
  ∧ fs w' !! ["data"; "proj"] = Some (Dir None)
  ∧ fs w' !! ["processed"; "data"; "proj"] = Some (Denied EACCES)
  ∧ log w' = [mkdir_warning ["proj"]
                (OSError EACCES ["processed"; "data"; "proj"])].
Proof. vm_compute. repeat split. Qed.

(** In a project directory that may not be searched, [mkdir] fails and is
    logged, and [is_file] raises the error of [stat]. *)
Example configure_unsearchable :
  let w' := (configure_environment None world_unsearchable).1 in
  (configure_environment None world_unsearchable).2
  = Raise (OSError EACCES [".env"; "proj"])
  ∧ log w' = [mkdir_warning ["proj"]
                (OSError EACCES ["processed"; "data"; "proj"])].
Proof. vm_compute. repeat split. Qed.

(** A key or a value with a NUL in it is refused by [putenv]: the load
    stops there with a [ValueError]. *)
Example load_line_nul :
  (_load_dotenv_line (String "A" (String "=" (String NUL ""))) world_example)
  = (world_example, Raise (ValueError "embedded null byte")).
Proof. reflexivity. Qed.

(** ** Further properties of the loader *)

Section loader_results.

Lemma partition_contains (c sep : ascii) (s k m v : string) :
  partition sep s = (k, m, v) → contains c s = false →
  contains c k = false ∧ contains c v = false.
Proof.
  intros Hp Hs. destruct (contains sep s) eqn:Hsep.
  - destruct (partition_found _ _ Hsep) as (k' & v' & Hp' & Hline & _).
    rewrite Hp in Hp'. injection Hp' as -> _ ->.
    rewrite Hline, contains_app in Hs. apply orb_false_iff in Hs as [Hk Hv].
    simpl in Hv. by apply orb_false_iff in Hv as [_ Hv].
  - rewrite (partition_missing _ _ Hsep) in Hp. by injection Hp as <- _ <-.
Qed.

(** Key and value hold no character that the line does not hold. *)
Lemma assignment_contains (c : ascii) (raw key value : string) :
  Spec.assignment raw = Some (key, value) → contains c raw = false →
  contains c key = false ∧ contains c value = false.
Proof.
  unfold Spec.assignment. destruct (Spec.blank_or_comment _); [done|].
  destruct (partition "=" (strip raw)) as [[k m] v] eqn:Hp.
  rewrite (partition_split_first_eq _ _ _ _ Hp).
  case_bool_decide; [done|]. intros [= <- <-] Hraw.
  destruct (partition_contains c _ _ _ _ _ Hp (contains_strip _ _ Hraw)).
  split; by apply contains_strip.
Qed.

(** Lines without NUL go through: [putenv] has nothing to refuse. *)
Lemma load_lines_clean (ls : list string) (w : world) :
  (∀ l : string, l ∈ ls → contains NUL l = false) →
  (for_each ls _load_dotenv_line w).2 = Return tt.
Proof.
  revert w. induction ls as [|l ls IH]; intros w Hls; [done|].
  cbn [for_each]. unfold bind.
  assert (∃ w1, _load_dotenv_line l w = (w1, Return tt)) as [w1 ->].
  { rewrite load_line_assignment.
    destruct (Spec.assignment l) as [[k v]|] eqn:Ha; [|by eexists].
    destruct (assignment_contains NUL _ _ _ Ha) as [Hk Hv];
      [apply Hls; by left|].
    destruct (assignment_key _ _ _ Ha) as [Hne Heq].
    destruct (environ w !! k) as [old|] eqn:Hlook.
    - rewrite (setdefault_present _ _ _ _ Hlook). by eexists.
    - rewrite setdefault_fresh by done. by eexists. }
  apply IH. intros l' Hin. apply Hls. by right.
Qed.

(** A loop that returned has added the bindings of the lines, the
    earliest line first and the environment before all of them. *)
Lemma load_lines_union (ls : list string) (w w' : world) :
  for_each ls _load_dotenv_line w = (w', Return tt) →
  environ w' = environ w ∪ list_to_map (bindings ls).
Proof.
  revert w. induction ls as [|l ls IH]; intros w.
  - intros [= <-]. simpl. by rewrite (right_id_L ∅ (∪)).
  - cbn [for_each]. unfold bind, bindings. cbn [omap list_omap].
    fold (bindings ls).
    destruct (_load_dotenv_line l w) as [w1 [[]|e]] eqn:Hl; [|done].
    intros Hrest. rewrite (IH _ Hrest). revert Hl.
    rewrite load_line_assignment.
    destruct (Spec.assignment l) as [[k v]|]; [|by intros [= <-]].
    cbn [list_to_map foldr uncurry fst snd].
    destruct (setdefault_cases k v w)
      as [[[old Hk] ->]|[[Hk ->]|[_ [e ->]]]]; [| |done].
    + intros [= <-]. apply map_eq. intros i.
      rewrite !lookup_union. destruct (decide (i = k)) as [->|Hne].
      * rewrite Hk. by rewrite !union_Some_l.
      * by rewrite lookup_insert_ne.
    + intros [= <-]. simpl.
      rewrite <- insert_union_l. by rewrite insert_union_r.
Qed.

(** A key that a loop sets comes from one of its lines. *)
Lemma load_lines_origin (ls : list string) (w : world) (k v : string) :
  environ w !! k = None →
  environ (for_each ls _load_dotenv_line w).1 !! k = Some v →
  ∃ raw : string, raw ∈ ls ∧ Spec.assignment raw = Some (k, v).
Proof.
  revert w. induction ls as [|l ls IH]; intros w Hk; simpl; [congruence|].
  unfold bind. destruct (_load_dotenv_line l w) as [w1 [[]|e]] eqn:Hl.
  - destruct (environ w1 !! k) as [v1|] eqn:Hk1.
    + intros Hv. exists l. split; [by left|].
      pose proof (load_lines_mono ls w1) as Hm.
      pose proof (lookup_weaken _ _ _ _ Hk1 Hm) as Hv1.
      assert (v1 = v) as -> by congruence.
      revert Hl. rewrite load_line_assignment.
      destruct (Spec.assignment l) as [[k' v']|]; [|intros [= <-]; congruence].
      destruct (setdefault_cases k' v' w)
        as [[_ ->]|[[_ ->]|[_ [e ->]]]]; [intros [= <-]; congruence| |done].
      intros [= <-]. simpl in Hk1.
      destruct (decide (k' = k)) as [->|Hne].
      * rewrite lookup_insert_eq in Hk1. congruence.
      * rewrite lookup_insert_ne in Hk1 by done. congruence.
    + intros Hv. destruct (IH w1 Hk1 Hv) as (raw & Hin & Ha).
      exists raw. split; [by right|done].
  - simpl. rewrite (load_line_raise _ _ _ _ Hl). congruence.
Qed.

End loader_results.

Section loader_properties.

(** What the loader sets is well formed: key and value are stripped, the
    key is not empty, holds no [=] and does not start with [#]. *)
Lemma assignment_well_formed (raw key value : string) :
  Spec.assignment raw = Some (key, value) →
  strip key = key ∧ strip value = value ∧ key ≠ ""
  ∧ contains "=" key = false ∧ startswith key "#" = false.
Proof.
  intros Ha. destruct (assignment_key _ _ _ Ha) as [Hne Heq].
  revert Ha. unfold Spec.assignment. rewrite blank_or_comment_code.
  destruct (strip raw) as [|c t] eqn:Hline; [done|]. cbn [truthy negb orb].
  destruct (startswith (String c t) "#") eqn:Hcomment; [done|].
  destruct (partition "=" (String c t)) as [[k m] v] eqn:Hp.
  rewrite (partition_split_first_eq _ _ _ _ Hp).
  case_bool_decide as Hk; [done|]. intros [= <- <-].
  split_and!; [apply strip_idem|apply strip_idem|done|done|].
  destruct k as [|d k]; [done|].
  destruct (partition_key_head _ _ _ _ _ _ Hp) as [t' [= <- _]].
  destruct (strip_nonspace_head c k (strip_head _ _ _ Hline)) as [u ->].
  exact Hcomment.
Qed.

Lemma load_dotenv_union (p : path) (s : string) (w : world) :
  fs w !! p = Some (File (Text s false)) →
  (_load_dotenv p w).2 = Return tt →
  environ (_load_dotenv p w).1
  = environ w ∪ list_to_map (bindings (lines s)).
Proof.
  intros Hfs. rewrite load_dotenv_unfold, Hfs. unfold for_line_in, bind.
  cbn [fst snd].
  destruct (for_each (lines s) _load_dotenv_line w) as [w1 [[]|e]] eqn:Hrun;
    [|done].
  intros _. by apply load_lines_union.
Qed.

(** X1. On a dotfile that loads without error, [_load_dotenv] computes a
    union: the environment it leaves is the environment it found, extended
    by the bindings of the lines; the environment wins over the file, and
    among lines for one key the earliest wins. *)
Theorem load_dotenv_is_union (p : path) (s : string) (w : world) :
  fs w !! p = Some (File (Text s false)) →
  (_load_dotenv p w).2 = Return tt →
  environ (_load_dotenv p w).1
  = environ w ∪ list_to_map (bindings (lines s)).
Proof.
  intros Hfs Hret. rewrite load_dotenv_unfold, Hfs in Hret |- *.
  unfold for_line_in, bind in Hret |- *. cbn [fst snd] in Hret |- *.
  destruct (for_each (lines s) _load_dotenv_line w) as [w1 [[]|e]] eqn:Hrun;
    [|done].
  cbn [fst]. by apply (load_lines_union (lines s) w).
Qed.

Lemma load_dotenv_clean (p : path) (s : string) (w : world) :
  fs w !! p = Some (File (Text s false)) →
  contains NUL s = false →
  (_load_dotenv p w).2 = Return tt.
Proof.
  intros Hfs Hs. rewrite load_dotenv_unfold, Hfs. unfold for_line_in, bind.
  cbn [fst snd].
  pose proof (load_lines_clean (lines s) w) as Hclean.
  destruct (for_each (lines s) _load_dotenv_line w) as [w1 [[]|e]]; [done|].
  apply Hclean. intros l Hl. by apply (lines_contains NUL s l).
Qed.

(** X2. A readable dotfile without NUL characters always loads: whatever
    its lines look like, [_load_dotenv] returns normally. *)
Theorem load_dotenv_without_nul_returns (p : path) (s : string) (w : world) :
  fs w !! p = Some (File (Text s false)) →
  contains NUL s = false →
  (_load_dotenv p w).2 = Return tt.
Proof.
  intros Hfs Hs. rewrite load_dotenv_unfold, Hfs. unfold for_line_in, bind.
  cbn [fst snd].
  assert ((for_each (lines s) _load_dotenv_line w).2 = Return tt) as Hloop.
  { apply load_lines_clean. intros l Hl. by apply (lines_contains NUL s l). }
  by destruct (for_each (lines s) _load_dotenv_line w) as [w1 [[]|e]].
Qed.

(** X3. A line whose key or value holds a NUL stops the load when its key
    is not set yet: [putenv] raises [ValueError], the variables of the
    earlier lines stay set and the later lines are not looked at. *)
Theorem nul_line_stops_the_load
    (p : path) (s : string) (bad : bool) (pre post : list string)
    (raw key value : string) (w : world) :
  fs w !! p = Some (File (Text s bad)) →
  lines s = (pre ++ raw :: post)%list →
  (for_each pre _load_dotenv_line w).2 = Return tt →
  Spec.assignment raw = Some (key, value) →
  contains NUL key || contains NUL value = true →
  environ (for_each pre _load_dotenv_line w).1 !! key = None →
  _load_dotenv p w
  = ((for_each pre _load_dotenv_line w).1,
     Raise (ValueError "embedded null byte")).
Proof.
  intros Hfs Hlines Hpre Ha Hnul Hkey.
  rewrite load_dotenv_unfold, Hfs. unfold for_line_in. cbn [fst snd].
  rewrite Hlines. unfold bind at 1. rewrite for_each_app. unfold bind at 1.
  destruct (for_each pre _load_dotenv_line w) as [w1 [[]|e]]; [|done].
  simpl in Hkey. cbn [for_each fst]. unfold bind at 1.
  rewrite load_line_assignment, Ha.
  unfold environ_setdefault, environ_setitem. by rewrite Hkey, Hnul.
Qed.

(** X4. The loader does not mind padding: a line made of a key, [=] and a
    value, with whitespace before, between and after them (the line end
    among it), hands exactly that key and that value to [setdefault].  The
    key is any stripped, non-empty text without [=] that does not start
    with [#]; the value is any stripped text, which may hold [=] and
    [#]. *)
Theorem padded_line_sets_key_to_value
    (ws1 ws2 ws3 ws4 key value : string) (w : world) :
  blank ws1 = true → blank ws2 = true → blank ws3 = true → blank ws4 = true →
  strip key = key → key ≠ "" →
  contains "=" key = false → startswith key "#" = false →
  strip value = value →
  _load_dotenv_line
    (ws1 +:+ key +:+ ws2 +:+ String "=" (ws3 +:+ value +:+ ws4)) w
  = environ_setdefault key value w.
Proof.
  intros H1 H2 H3 H4 Hk Hne Heq Hcomment Hv.
  destruct (stripped_head key Hk Hne) as (c & t & -> & Hc & Hrk).
  assert (strip (ws1 +:+ String c t +:+ ws2
                 +:+ String "=" (ws3 +:+ value +:+ ws4))
          = (String c t +:+ ws2)
            +:+ String "=" (rstrip (ws3 +:+ value +:+ ws4))) as Hline.
  { unfold strip. rewrite (blank_lstrip _ _ H1), append_cons.
    rewrite lstrip_nonspace by done. rewrite <- append_cons.
    rewrite <- app_assoc_s, rstrip_app.
    by rewrite (rstrip_head "=") by done. }
  unfold _load_dotenv_line. rewrite Hline.
  rewrite partition_app
    by (by rewrite contains_app, Heq, (blank_contains "=")).
  rewrite !append_cons. cbn [truthy negb orb startswith].
  cbn [startswith] in Hcomment. rewrite Hcomment.
  rewrite <- append_cons.
  assert (strip (String c t +:+ ws2) = String c t) as ->.
  { unfold strip. rewrite append_cons, lstrip_nonspace by done.
    rewrite <- append_cons. by rewrite (blank_rstrip _ _ H2). }
  by rewrite strip_rstrip, (strip_padding _ _ _ H3 H4), Hv.
Qed.

(** X5. Whatever happens during the load, a variable that it adds comes
    from a line of the file, and it is well formed: name and value are
    stripped, and the name is not empty, holds no [=] and does not start
    with [#]. *)
Theorem new_variable_comes_from_a_line
    (p : path) (s : string) (bad : bool) (w : world) (k v : string) :
  fs w !! p = Some (File (Text s bad)) →
  environ w !! k = None →
  environ (_load_dotenv p w).1 !! k = Some v →
  (∃ raw : string, raw ∈ lines s ∧ Spec.assignment raw = Some (k, v))
  ∧ strip k = k ∧ strip v = v ∧ k ≠ ""
  ∧ contains "=" k = false ∧ startswith k "#" = false.
Proof.
  intros Hfs Hk. rewrite load_dotenv_unfold, Hfs. unfold for_line_in, bind.
  cbn [fst snd]. intros Hv.
  assert (environ (for_each (lines s) _load_dotenv_line w).1 !! k = Some v)
    as Hloop.
  { destruct (for_each (lines s) _load_dotenv_line w) as [w1 [[]|e]];
      [by destruct bad|done]. }
  destruct (load_lines_origin _ _ _ _ Hk Hloop) as (raw & Hin & Ha).
  split; [by exists raw|]. by apply (assignment_well_formed raw).
Qed.

(** X6. When no key is assigned by two lines, the order of the lines does
    not matter: two NUL-free dotfiles with the same lines in another order
    load to the same result. *)
Theorem line_order_is_irrelevant
    (p1 p2 : path) (s1 s2 : string) (w : world) :
  fs w !! p1 = Some (File (Text s1 false)) →
  fs w !! p2 = Some (File (Text s2 false)) →
  lines s1 ≡ₚ lines s2 →
  NoDup (bindings (lines s1)).*1 →
  contains NUL s1 = false →
  _load_dotenv p1 w = _load_dotenv p2 w.
Proof.
  intros Hfs1 Hfs2 Hperm Hnodup Hnul.
  assert ((_load_dotenv p1 w).2 = Return tt) as Hr1
    by by eapply load_dotenv_clean.
  assert ((_load_dotenv p2 w).2 = Return tt) as Hr2.
  { rewrite load_dotenv_unfold, Hfs2. unfold for_line_in, bind. cbn [fst snd].
    pose proof (load_lines_clean (lines s2) w) as Hclean.
    destruct (for_each (lines s2) _load_dotenv_line w) as [w1 [[]|e]];
      [done|].
    apply Hclean. intros l Hl. apply (lines_contains NUL s1 l); [done..|].
    by rewrite Hperm. }
  pose proof (load_dotenv_union _ _ _ Hfs1 Hr1) as He1.
  pose proof (load_dotenv_union _ _ _ Hfs2 Hr2) as He2.
  assert (environ (_load_dotenv p1 w).1 = environ (_load_dotenv p2 w).1)
    as Henv.
  { rewrite He1, He2. f_equal. apply list_to_map_proper; [done|].
    unfold bindings. by rewrite Hperm. }
  destruct (_load_dotenv p1 w) as [w1 r1] eqn:E1.
  destruct (_load_dotenv p2 w) as [w2 r2] eqn:E2.
  pose proof (load_dotenv_frame p1 w) as F1.
  pose proof (load_dotenv_frame p2 w) as F2.
  rewrite E1 in F1. rewrite E2 in F2. simpl in *.
  rewrite F1, F2, Henv. congruence.
Qed.

End loader_properties.

(** ** Further properties of the bootstrap *)

Section bootstrap_properties.


(** X8. [configure_environment] deletes nothing and overwrites nothing in
    the filesystem: every entry stays as it was, and whatever is new is a
    directory, at [project_root/data/processed] or above it.  The working
    directory stays as well. *)
Theorem configure_keeps_the_filesystem (root : option path) (w : world) :
  let project_root := default (cwd w) root in
  let w' := (configure_environment root w).1 in
  fs w ⊆ fs w'
  ∧ (∀ q, fs w !! q = None → is_Some (fs w' !! q) →
          fs w' !! q = Some (Dir None)
          ∧ q `suffix_of` processed_dir project_root)
  ∧ cwd w' = cwd w.
Proof.
  intros project_root w'. subst w'.
  destruct (project_root_cases root w) as [Hpr|[-> Hnd]].
  2: { destruct (configure_no_cwd w Hnd) as [e ->]. cbn [fst].
       split_and!; [done| |done]. intros q Hq [x Hx]. congruence. }
  fold project_root in Hpr.
  destruct (configure_logging_state w) as ([_ Hfs] & _ & Hcwd & _).
  rewrite (configure_unfold _ _ _ Hpr).
  destruct (ensure_frame project_root (_configure_logging w).1) as [Hc _].
  destruct (ensure_fs project_root (_configure_logging w).1) as [Hsub Hnew].
  rewrite Hfs in Hsub, Hnew. rewrite Hc, Hcwd. done.
Qed.

(** X9. The log tells whether the directory is there.  For a project
    root that can be handed to the system, after
    [configure_environment] either [project_root/data/processed] is a
    directory and the call has logged nothing, or it is not, what stands
    at its path is what stood there, and the call has logged one
    warning, for an [OSError]. *)
Theorem warning_exactly_without_directory
    (root : option path) (pr : path) (w : world) :
  project_root_is root w pr → has_nul pr = false →
  let w' := (configure_environment root w).1 in
  (is_dir_in (fs w') (processed_dir pr) ∧ log w' = log w)
  ∨ (¬ is_dir_in (fs w') (processed_dir pr)
     ∧ fs w' !! processed_dir pr = fs w !! processed_dir pr
     ∧ ∃ en p, log w' = log w ++ [mkdir_warning pr (OSError en p)]).
Proof.
  intros Hpr Hnul w'. subst w'.
  destruct (configure_logging_state w) as ([_ Hfs] & _).
  destruct (configure_mkdir_keeps pr w) as (_ & Hlog & _).
  pose proof (Path_mkdir_spec (processed_dir pr) (_configure_logging w).1)
    as (_ & _ & Hend).
  rewrite (configure_steps _ _ _ Hpr).
  destruct (Path_mkdir (processed_dir pr) (_configure_logging w).1)
    as [wm [u|e]]; cbn [fst snd] in *.
  - left. rewrite load_if_present_frame. simpl. done.
  - right. destruct Hend as (Hsame & Hnd & Hend).
    rewrite processed_dir_nul, Hnul in Hend. rewrite Hend.
    rewrite load_if_present_frame. simpl. rewrite Hfs in Hsame.
    split_and!; [done|done|].
    destruct e as [en p| |]; try done. by exists en, p.
Qed.

(** X13. A NUL in a name of the project root is not a matter for the
    handler of [mkdir]: the [ValueError] that the conversion of the path
    raises is no [OSError], so [configure_environment] raises it to the
    caller, after configuring the logging and before the dotfile step;
    nothing is logged and nothing else has changed. *)
Theorem nul_in_project_root_is_raised (p : path) (w : world) :
  has_nul p = true →
  configure_environment (Some p) w
  = ((_configure_logging w).1, Raise (ValueError "embedded null byte"))
  ∧ log (configure_environment (Some p) w).1 = log w
  ∧ same_state (configure_environment (Some p) w).1 w.
Proof.
  intros Hnul.
  destruct (configure_logging_state w) as (Hs & Hlog & _).
  rewrite (configure_steps (Some p) w p) by done.
  rewrite Path_mkdir_nul by by rewrite processed_dir_nul.
  done.
Qed.

(** The loop raises only for a NUL, with the error of [putenv]. *)
Lemma load_lines_raise_nul (ls : list string) (w : world) (e : exn) :
  (for_each ls _load_dotenv_line w).2 = Raise e →
  e = ValueError "embedded null byte"
  ∧ ∃ l : string, l ∈ ls ∧ contains NUL l = true.
Proof.
  revert w. induction ls as [|l ls IH]; intros w; [done|].
  cbn [for_each]. unfold bind.
  destruct (_load_dotenv_line l w) as [w1 [[]|e1]] eqn:Hl.
  - intros Hrest. destruct (IH _ Hrest) as [-> (l' & Hin & Hnul)].
    split; [done|]. exists l'. split; [by right|done].
  - simpl. intros [= ->]. revert Hl. rewrite load_line_assignment.
    destruct (Spec.assignment l) as [[k v]|] eqn:Ha; [|done].
    destruct (assignment_key _ _ _ Ha) as [Hne Heq].
    destruct (contains NUL l) eqn:Hnul.
    + unfold environ_setdefault, environ_setitem. rewrite Hne, Heq.
      repeat case_match; intros [= _ <-]; (split; [done|]);
        exists l; (split; [by left|done]).
    + destruct (assignment_contains NUL _ _ _ Ha Hnul) as [Hk Hv].
      destruct (environ w !! k) as [old|] eqn:Hlook.
      * by rewrite (setdefault_present _ _ _ _ Hlook).
      * by rewrite setdefault_fresh.
Qed.

(** The errors of the dotfile step, when a dotfile is there. *)
Lemma load_dotenv_raise (p : path) (c : contents) (w : world) (e : exn) :
  fs w !! p = Some (File c) → (_load_dotenv p w).2 = Raise e →
  dotfile_error p c e.
Proof.
  intros Hc Hraise. rewrite load_dotenv_unfold, Hc in Hraise.
  destruct c as [en|s bad]; simpl in *; [congruence|].
  unfold for_line_in, bind in Hraise. cbn [fst snd] in Hraise.
  destruct (for_each (lines s) _load_dotenv_line w) as [w1 [[]|e1]] eqn:Hrun.
  - destruct bad; [left|done]. split; [done|]. unfold raise in Hraise.
    simpl in Hraise. congruence.
  - right. simpl in Hraise. injection Hraise as ->.
    destruct (load_lines_raise_nul (lines s) w e) as [-> (l & Hin & Hnul)];
      [by rewrite Hrun|].
    split; [|done]. destruct (contains NUL s) eqn:Hs; [done|].
    rewrite (lines_contains NUL s l) in Hnul; done.
Qed.

(** X11. What [configure_environment] raises.  When it raises, it is for
    one of four reasons: no project root was given and the working
    directory is not there; a name of the project root holds a NUL, which
    [mkdir] refuses with a [ValueError]; [is_file], run on the dotfile's
    path after [mkdir], raises an [OSError] that pathlib does not take
    for a missing file; or [project_root/.env] is a regular file, and the
    error is the one of opening it, the one of decoding it, or the
    [ValueError] of [putenv] for a NUL in its text.  An [OSError] of
    [mkdir] is not among them. *)
Theorem configure_raises_for_four_reasons
    (root : option path) (w : world) (e : exn) :
  let pr := default (cwd w) root in
  (configure_environment root w).2 = Raise e →
  (root = None ∧ ¬ is_dir_in (fs w) (cwd w) ∧ ∃ en, e = OSError en (cwd w))
  ∨ (has_nul pr = true ∧ e = ValueError "embedded null byte")
  ∨ ((Path_is_file (dotenv_path pr)
        (Path_mkdir (processed_dir pr) (_configure_logging w).1).1).2
     = Raise e
     ∧ is_OSError e = true ∧ _ignore_error e = false)
  ∨ (∃ c, fs w !! dotenv_path pr = Some (File c)
          ∧ dotfile_error (dotenv_path pr) c e).
Proof.
  intros pr.
  destruct (project_root_cases root w) as [Hpr|[-> Hnd]].
  2: { destruct (configure_no_cwd w Hnd) as [en ->]. intros [= <-].
       left. split_and!; [done|done|by exists en]. }
  fold pr in Hpr. rewrite (configure_steps _ _ _ Hpr).
  destruct (configure_mkdir_keeps pr w) as (_ & _ & _ & Hd & _).
  pose proof (Path_mkdir_spec (processed_dir pr) (_configure_logging w).1)
    as (_ & _ & Hend).
  rewrite Path_is_file_unfold. cbn [snd].
  assert (∀ wb, fs wb = fs (Path_mkdir (processed_dir pr)
                              (_configure_logging w).1).1 →
                (load_if_present pr wb).2 = Raise e →
                (is_file_answer (fs wb) (dotenv_path pr) = Raise e
                 ∧ is_OSError e = true ∧ _ignore_error e = false)
                ∨ (∃ c, fs w !! dotenv_path pr = Some (File c)
                        ∧ dotfile_error (dotenv_path pr) c e)) as Hstep.
  { intros wb Hwb. rewrite load_if_present_unfold.
    destruct (is_file_answer (fs wb) (dotenv_path pr)) as [[]|e'] eqn:Ha.
    - intros Hraise. right.
      apply is_file_answer_true in Ha as [c Hc]. exists c.
      split; [by rewrite <- Hd, <- Hwb|].
      by apply (load_dotenv_raise _ _ wb).
    - done.
    - intros [= ->]. left. split; [done|].
      by apply (is_file_answer_raise _ _ _ Ha). }
  destruct (Path_mkdir (processed_dir pr) (_configure_logging w).1)
    as [wm [u|e']]; cbn [fst snd] in *.
  - intros Hraise. right; right. by apply (Hstep wm).
  - destruct Hend as (_ & _ & Hend). rewrite processed_dir_nul in Hend.
    destruct (has_nul pr).
    + destruct Hend as [-> _]. cbn [is_OSError]. intros [= <-].
      right; left. done.
    + rewrite Hend. intros Hraise. right; right.
      destruct (Hstep (set_log (log w ++ [mkdir_warning pr e']) wm) eq_refl
                  Hraise) as [H|H]; [left|right]; done.
Qed.

End bootstrap_properties.

Section whole_effect.

(** X12. With a dotfile that is readable text, a call of
    [configure_environment] that returns has extended the environment by
    the bindings of the dotfile, the environment winning over the file and
    the earliest line among lines for one key; this is so whether or not
    the directories could be made. *)
Theorem configure_environment_is_union
    (root : option path) (s : string) (w : world) :
  let project_root := default (cwd w) root in
  fs w !! dotenv_path project_root = Some (File (Text s false)) →
  (configure_environment root w).2 = Return tt →
  environ (configure_environment root w).1
  = environ w ∪ list_to_map (bindings (lines s)).
Proof.
  intros project_root Hfs.
  destruct (configure_dotenv_step root w _ Hfs) as (wb & -> & Henv & Hd).
  fold project_root in Hd |- *. intros Hret.
  by rewrite (load_dotenv_union _ _ _ Hd Hret), Henv.
Qed.

End whole_effect.

Lemma load_dotenv_is_union_witness :
  environ (_load_dotenv [".env"; "proj"] world_example).1
  = environ world_example
    ∪ list_to_map (bindings (lines (example_dotfile true))).
Proof.
  apply (load_dotenv_is_union [".env"; "proj"] (example_dotfile true)
           world_example); reflexivity.
Defined.

Lemma load_dotenv_without_nul_returns_witness :
  (_load_dotenv [".env"; "proj"] world_duplicates).2 = Return tt.
Proof.
  apply (load_dotenv_without_nul_returns [".env"; "proj"]
           ("A=1" +:+ nl +:+ "K=first" +:+ nl +:+ "K=second" +:+ nl)
           world_duplicates); reflexivity.
Defined.

Lemma nul_line_stops_the_load_witness :
  _load_dotenv [".env"; "proj"] world_nul
  = (set_environ {[ "A" := "1" ]} world_nul,
     Raise (ValueError "embedded null byte")).
Proof.
  apply (nul_line_stops_the_load [".env"; "proj"] nul_dotfile false
           ["A=1" +:+ nl] ["C=3" +:+ nl] ("B=" +:+ String NUL nl)
           "B" (String NUL "") world_nul); reflexivity.
Defined.

Lemma padded_line_sets_key_to_value_witness :
  _load_dotenv_line
    (" " +:+ "BAZ" +:+ " " +:+ String "=" (" " +:+ "qux=1 # x" +:+ nl))
    world_example
  = environ_setdefault "BAZ" "qux=1 # x" world_example.
Proof.
  apply (padded_line_sets_key_to_value " " " " " " nl "BAZ" "qux=1 # x"
           world_example); try reflexivity.
  discriminate.
Defined.

Lemma new_variable_comes_from_a_line_witness :
  (∃ raw : string, raw ∈ lines (example_dotfile true)
                   ∧ Spec.assignment raw = Some ("BAZ", "qux"))
  ∧ strip "BAZ" = "BAZ".
Proof.
  destruct (new_variable_comes_from_a_line [".env"; "proj"]
              (example_dotfile true) false world_example "BAZ" "qux")
    as (Hraw & Hk & _); [reflexivity..|].
  split; assumption.
Defined.

Lemma line_order_is_irrelevant_witness :
  _load_dotenv [".env"; "proj"] world_two_orders
  = _load_dotenv [".env"; "other"] world_two_orders.
Proof.
  apply (line_order_is_irrelevant [".env"; "proj"] [".env"; "other"]
           ("A=1" +:+ nl +:+ "B=2" +:+ nl) ("B=2" +:+ nl +:+ "A=1" +:+ nl)
           world_two_orders).
  - reflexivity.
  - reflexivity.
  - apply perm_swap.
  - apply (NoDup_cons_2 "A" ["B"]); [|apply NoDup_singleton].
    intros Hin. apply list_elem_of_singleton in Hin. discriminate Hin.
  - reflexivity.
Defined.


Lemma warning_exactly_without_directory_witness :
  ∃ en p, log (configure_environment None world_umask).1
          = [mkdir_warning ["proj"] (OSError en p)].
Proof.
  destruct (warning_exactly_without_directory None ["proj"] world_umask)
    as [[[d Hd] _]|(_ & _ & Hlog)].
  - split; [reflexivity|]. exists None. reflexivity.
  - reflexivity.
  - vm_compute in Hd. discriminate Hd.
  - exact Hlog.
Defined.

Lemma nul_in_project_root_is_raised_witness :
  (configure_environment (Some [String NUL ""; "proj"]) world_example).2
  = Raise (ValueError "embedded null byte")
  ∧ log (configure_environment (Some [String NUL ""; "proj"]) world_example).1
    = [].
Proof.
  destruct (nul_in_project_root_is_raised [String NUL ""; "proj"]
              world_example) as (Hrun & Hlog & _).
  - reflexivity.
  - split; [|exact Hlog]. rewrite Hrun. reflexivity.
Defined.

Lemma configure_environment_is_union_witness :
  environ (configure_environment None world_two_orders).1
  = {[ "A" := "0" ]} ∪ list_to_map [("A", "1"); ("B", "2")].
Proof.
  apply (configure_environment_is_union None ("A=1" +:+ nl +:+ "B=2" +:+ nl)
           world_two_orders); reflexivity.
Defined.

Lemma configure_raises_for_four_reasons_witness :
  (Path_is_file [".env"; "proj"]
     (Path_mkdir ["processed"; "data"; "proj"]
        (_configure_logging world_unsearchable).1).1).2
  = Raise (OSError EACCES [".env"; "proj"])
  ∧ _ignore_error (OSError EACCES [".env"; "proj"]) = false.
Proof.
  destruct (configure_raises_for_four_reasons None world_unsearchable
              (OSError EACCES [".env"; "proj"]))
    as [(_ & Hnd & _)|[[Hnul _]|[(Hraise & _ & Hign)|(c & Hc & _)]]].
  - reflexivity.
  - destruct Hnd. exists (Some EACCES). reflexivity.
  - vm_compute in Hnul. discriminate Hnul.
  - split; [exact Hraise|exact Hign].
  - vm_compute in Hc. discriminate Hc.
Defined.
